(** * go-user-api: a shallow embedding of the user-account service

    The development follows the layout of the Go sources:

    - [Strconv], [Regexp]: the two standard-library functions the code
      relies on for parsing ([strconv.Atoi], [regexp.MatchString]);
    - [Models]: [internal/models/user.go] (records, [Validate],
      [isValidEmail], the JSON shape given by the struct tags);
    - [Utils]: [internal/utils/jwt.go] ([GenerateToken], [ValidateToken]);
    - [Store]: the [users] table and the SQL statements the handlers send;
    - [Handlers]: [internal/handlers/auth.go] and [users.go];
    - [Spec]: the stated properties, in the words of the specification;
    - [Fixtures]: a small table and stand-ins for the abstract primitives.

    Integers are [Z], text is [string] (a sequence of bytes, as in Go),
    instants are [Z] nanoseconds since the Unix epoch, the table is a
    [gmap] from the primary key to the remaining columns. *)

From Stdlib Require Import ZArith Ascii String List Lia Bool.
From stdpp Require Import base decidable option list sorting gmap strings.

Set Default Proof Using "Type".

(** ** Results of fallible calls: Go's [(value, error)] pairs *)

Inductive result (E A : Type) : Type :=
| Ok (a : A)
| Err (e : E).
Arguments Ok {E A} a.
Arguments Err {E A} e.

(** ** strconv *)

Module Strconv.

(** The value of a decimal digit, [ch - '0'] with the test [ch > 9]. *)
Definition digit (c : ascii) : option Z :=
  let n := Z.of_N (N_of_ascii c) in
  if ((48 <=? n) && (n <=? 57))%Z then Some (n - 48)%Z else None.

(** [n = n*10 + int(ch)] over the bytes of the string, failing on the
    first byte that is not a digit. *)
Fixpoint digits (acc : Z) (s : string) : option Z :=
  match s with
  | EmptyString => Some acc
  | String c s' =>
      match digit c with
      | Some d => digits (acc * 10 + d)%Z s'
      | None => None
      end
  end.

Definition minInt : Z := (- 2 ^ 63)%Z.
Definition maxInt : Z := (2 ^ 63 - 1)%Z.

(** [strconv.Atoi] on a 64-bit platform: an optional sign, at least one
    digit, nothing else, and a value that fits an [int]; [None] stands
    for the returned [*NumError] (syntax or range). *)
Definition Atoi (s : string) : option Z :=
  match s with
  | EmptyString => None
  | String c rest =>
      let neg := Ascii.eqb c "-" in
      let body := if neg || Ascii.eqb c "+" then rest else s in
      match body with
      | EmptyString => None
      | _ =>
          match digits 0 body with
          | Some n =>
              let v := if neg then (- n)%Z else n in
              if ((minInt <=? v) && (v <=? maxInt))%Z then Some v else None
          | None => None
          end
      end
  end.

End Strconv.

(** ** regexp: the fragment of RE2 syntax used by [isValidEmail] *)

Module Regexp.

Inductive re : Type :=
| Void
| Eps
| Class (p : ascii -> bool)
| Cat (r1 r2 : re)
| Alt (r1 r2 : re)
| Star (r : re).

Definition Lit (c : ascii) : re := Class (Ascii.eqb c).
Definition Plus (r : re) : re := Cat r (Star r).
(** [r{2,}] *)
Definition AtLeast2 (r : re) : re := Cat r (Cat r (Star r)).

(** The language of an expression. *)
Inductive Matches : re -> list ascii -> Prop :=
| MEps : Matches Eps []
| MClass p c : p c = true -> Matches (Class p) [c]
| MCat r1 r2 w1 w2 :
    Matches r1 w1 -> Matches r2 w2 -> Matches (Cat r1 r2) (w1 ++ w2)
| MAltL r1 r2 w : Matches r1 w -> Matches (Alt r1 r2) w
| MAltR r1 r2 w : Matches r2 w -> Matches (Alt r1 r2) w
| MStar0 r : Matches (Star r) []
| MStarS r w1 w2 :
    Matches r w1 -> Matches (Star r) w2 -> Matches (Star r) (w1 ++ w2).

Fixpoint nullable (r : re) : bool :=
  match r with
  | Void => false
  | Eps => true
  | Class _ => false
  | Cat r1 r2 => nullable r1 && nullable r2
  | Alt r1 r2 => nullable r1 || nullable r2
  | Star _ => true
  end.

(** Brzozowski derivative. *)
Fixpoint deriv (c : ascii) (r : re) : re :=
  match r with
  | Void => Void
  | Eps => Void
  | Class p => if p c then Eps else Void
  | Cat r1 r2 =>
      if nullable r1
      then Alt (Cat (deriv c r1) r2) (deriv c r2)
      else Cat (deriv c r1) r2
  | Alt r1 r2 => Alt (deriv c r1) (deriv c r2)
  | Star r1 => Cat (deriv c r1) (Star r1)
  end.

Fixpoint matchb (r : re) (w : list ascii) : bool :=
  match w with
  | [] => nullable r
  | c :: w' => matchb (deriv c r) w'
  end.

(** An anchored pattern [^r$] without flags matches the whole text. *)
Definition MatchString (r : re) (s : string) : bool :=
  matchb r (list_ascii_of_string s).

End Regexp.

(** ** internal/models/user.go *)

Module Models.
Import Regexp.

Definition Time : Type := Z.

Record User : Type := mkUser {
  ID : Z;
  Email : string;
  Username : string;
  PasswordHash : string;
  FirstName : string;
  LastName : string;
  CreatedAt : Time;
  UpdatedAt : Time
}.

Record RegisterRequest : Type := mkRegisterRequest {
  reg_Email : string;
  reg_Username : string;
  reg_Password : string;
  reg_FirstName : string;
  reg_LastName : string
}.

Record LoginRequest : Type := mkLoginRequest {
  login_Email : string;
  login_Password : string
}.

Record UpdateUserRequest : Type := mkUpdateUserRequest {
  upd_Email : string;
  upd_Username : string;
  upd_FirstName : string;
  upd_LastName : string
}.

Definition in_range (lo hi c : ascii) : bool :=
  (N_of_ascii lo <=? N_of_ascii c)%N && (N_of_ascii c <=? N_of_ascii hi)%N.

(** [a-zA-Z] *)
Definition alpha (c : ascii) : bool :=
  in_range "a" "z" c || in_range "A" "Z" c.

(** [a-zA-Z0-9] *)
Definition alnum (c : ascii) : bool :=
  alpha c || in_range "0" "9" c.

Definition one_of (l : list ascii) (c : ascii) : bool :=
  existsb (Ascii.eqb c) l.

(** [a-zA-Z0-9._%+-] *)
Definition local_char (c : ascii) : bool :=
  alnum c || one_of ["."; "_"; "%"; "+"; "-"]%char c.

(** [a-zA-Z0-9.-] *)
Definition domain_char (c : ascii) : bool :=
  alnum c || one_of ["."; "-"]%char c.

(** [^[a-zA-Z0-9._%+-]+@[a-zA-Z0-9.-]+\.[a-zA-Z]{2,}$] *)
Definition emailRegex : re :=
  Cat (Plus (Class local_char))
    (Cat (Lit "@")
       (Cat (Plus (Class domain_char))
          (Cat (Lit ".") (AtLeast2 (Class alpha))))).

Definition isValidEmail (email : string) : bool :=
  MatchString emailRegex email.

Definition is_empty (s : string) : bool :=
  match s with EmptyString => true | _ => false end.

(** [Validate] returns the error of the first failing check, [None]
    standing for [nil]. *)
Definition Validate (r : RegisterRequest) : option string :=
  if is_empty (reg_Email r) then Some "email is required"
  else if negb (isValidEmail (reg_Email r)) then Some "invalid email format"
  else if is_empty (reg_Username r) then Some "username is required"
  else if (String.length (reg_Username r) <? 3)%nat
    then Some "username must be at least 3 characters"
  else if is_empty (reg_Password r) then Some "password is required"
  else if (String.length (reg_Password r) <? 6)%nat
    then Some "password must be at least 6 characters"
  else None.

(** *** encoding/json, as far as the struct tags decide it *)

#[local] Set Warnings "-register-all".
Inductive json : Type :=
| JNull
| JNum (n : Z)
| JStr (s : string)
| JTime (t : Time)            (* a [time.Time], printed as RFC 3339 text *)
| JArr (items : list json)
| JObj (fields : list (string * json)).

(** A [string] field tagged [omitempty] is left out when it is empty. *)
Definition omitempty (key value : string) : list (string * json) :=
  if is_empty value then [] else [(key, JStr value)].

(** [json.Marshal] of a [User]: one member per tagged field, in the
    order of the struct; the field tagged ["-"] is never written. *)
Definition marshalUser (u : User) : json :=
  JObj ([("id", JNum (ID u));
         ("email", JStr (Email u));
         ("username", JStr (Username u))]
        ++ omitempty "first_name" (FirstName u)
        ++ omitempty "last_name" (LastName u)
        ++ [("created_at", JTime (CreatedAt u));
            ("updated_at", JTime (UpdatedAt u))]).

(** [LoginResponse{Token, User}] *)
Definition marshalLoginResponse (token : string) (u : User) : json :=
  JObj [("token", JStr token); ("user", marshalUser u)].

(** Every member name occurring anywhere in a document. *)
Fixpoint json_keys (j : json) : list string :=
  match j with
  | JArr items => flat_map json_keys items
  | JObj fields =>
      flat_map (fun kv => fst kv :: json_keys (snd kv)) fields
  | _ => []
  end.

End Models.


(** ** internal/utils/jwt.go *)

Module Utils.
Import Models.

(** [time.Duration] values, in nanoseconds. *)
Definition Second : Z := 1000000000.
Definition Hour : Z := 3600 * Second.

(** [t.Add(d)] and [t.Truncate(d)] for a positive [d]. *)
Definition Add (t : Time) (d : Z) : Time := (t + d)%Z.
Definition Truncate (t : Time) (d : Z) : Time := (t - t mod d)%Z.

(** [jwt.NewNumericDate]: the instant at the precision of a token,
    whole seconds. *)
Definition NewNumericDate (t : Time) : Time := Truncate t Second.

Inductive SigningMethod : Type :=
| SigningMethodHS256
| SigningMethodHS384
| SigningMethodHS512
| SigningMethodOther (alg : string).

(** The type assertion of the key function: is the method of the header
    one of the HMAC family? *)
Definition isHMAC (m : SigningMethod) : bool :=
  match m with
  | SigningMethodOther _ => false
  | _ => true
  end.

(** [Claims]: the custom [user_id] with the registered claims the
    library validates by default.  Go's [int] is modelled by [Z]: a
    [user_id] beyond 64 bits, which the decoder of the claims would
    refuse, is not told apart. *)
Record Claims : Type := mkClaims {
  UserID : Z;
  ExpiresAt : option Time;
  NotBefore : option Time;
  IssuedAt : option Time
}.

(** A token as the parser sees it: header algorithm, claims set and
    signature segment. *)
Record Token : Type := mkToken {
  Method : SigningMethod;
  TokenClaims : Claims;
  Signature : string
}.

(** The primitives of the token library that stay abstract: the keyed
    digest of each HMAC method, the text that gets signed, and the
    compact serialisation sent to clients. *)
Class JwtLib : Type := {
  mac : SigningMethod -> string -> string -> string;
  SigningString : SigningMethod -> Claims -> string;
  compact : Token -> string
}.

Inductive JwtError : Type :=
| ErrSecretNotSet
| ErrInvalidSigningMethod
| ErrTokenSignatureInvalid
| ErrTokenExpired
| ErrTokenNotValidYet.

Section WithLib.
Context `{JwtLib}.

(** [token.SignedString(key)] *)
Definition SignedString (m : SigningMethod) (c : Claims) (key : string) : Token :=
  mkToken m c (mac m key (SigningString m c)).

(** [GenerateToken]. [secretKey] is the value of [JWT_SECRET];
    [now1] and [now2] are the readings of the two calls of
    [time.Now()], in the order the struct literal evaluates them:
    the one for [ExpiresAt] first, the one for [IssuedAt] second. *)
Definition GenerateToken (secretKey : string) (now1 now2 : Time) (userID : Z)
  : result JwtError Token :=
  if is_empty secretKey then Err ErrSecretNotSet
  else
    let claims :=
      {| UserID := userID;
         ExpiresAt := Some (NewNumericDate (Add now1 (24 * Hour)));
         NotBefore := None;
         IssuedAt := Some (NewNumericDate now2) |} in
    Ok (SignedString SigningMethodHS256 claims secretKey).

(** The claims validator with its default options: [exp] must lie
    after the current time, [nbf] must not; [iat] is not looked at. *)
Definition validateClaims (now : Time) (c : Claims) : option JwtError :=
  match ExpiresAt c with
  | Some exp => if (now <? exp)%Z then None else Some ErrTokenExpired
  | None => None
  end
  ∪
  match NotBefore c with
  | Some nbf => if (now <? nbf)%Z then Some ErrTokenNotValidYet else None
  | None => None
  end.

(** [ValidateToken] at the instant [now]. *)
Definition ValidateToken (secretKey : string) (now : Time) (token : Token)
  : result JwtError Z :=
  if is_empty secretKey then Err ErrSecretNotSet
  else if negb (isHMAC (Method token)) then Err ErrInvalidSigningMethod
  else if negb (String.eqb (Signature token)
                  (mac (Method token) secretKey
                     (SigningString (Method token) (TokenClaims token))))
    then Err ErrTokenSignatureInvalid
  else
    match validateClaims now (TokenClaims token) with
    | Some e => Err e
    | None => Ok (UserID (TokenClaims token))
    end.

End WithLib.

End Utils.

(** ** The store: the [users] table and the statements sent to it

    Columns follow the schema of the README: [id] is the primary key,
    [email], [username] and [password_hash] are [NOT NULL], the name and
    timestamp columns are nullable; [email] and [password_hash] are
    [VARCHAR(255)], [username], [first_name] and [last_name] are
    [VARCHAR(100)].  The database is in the UTF8 encoding.  Integers are
    unbounded. *)

Module Store.
Import Models.

Record Row : Type := mkRow {
  email : string;
  username : string;
  password_hash : string;
  first_name : option string;
  last_name : option string;
  created_at : option Time;
  updated_at : option Time
}.

(** A statement as the handlers send it, with its arguments. *)
Inductive Statement : Type :=
| InsertUser (e u h fn ln : string)
| SelectByEmail (e : string)
| SelectByID (id : Z)
| SelectAll
| UpdateNames (fn ln : string) (id : Z)
| DeleteByID (id : Z).

(** The handle [*sql.DB] with the state behind it: the table, the
    sequence feeding [id], whether the server answers at all, and the
    statements sent so far (most recent first). *)
Record DB : Type := mkDB {
  users : gmap Z Row;
  users_id_seq : Z;
  reachable : bool;
  sent : list Statement
}.

Inductive SqlError : Type :=
| ErrNoRows            (* [sql.ErrNoRows] *)
| ErrUniqueViolation   (* a UNIQUE or PRIMARY KEY constraint *)
| ErrDriver            (* connection refused, reset, timed out, ... *)
| ErrData              (* text the server refuses: bad encoding or too long *)
| ErrScan.             (* a NULL column scanned into a Go [string] or [time.Time] *)

(** *** Text as the server takes it *)

Definition byte_in (lo hi : N) (c : ascii) : bool :=
  (lo <=? N_of_ascii c)%N && (N_of_ascii c <=? hi)%N.

(** A continuation byte of a multi-byte character. *)
Definition continuation : ascii -> bool := byte_in 128 191.

(** The second byte allowed after the lead byte of a three-byte
    character: no overlong form, no surrogate. *)
Definition second_of_three (a b : ascii) : bool :=
  (byte_in 224 224 a && byte_in 160 191 b)
  || (byte_in 225 236 a && continuation b)
  || (byte_in 237 237 a && byte_in 128 159 b)
  || (byte_in 238 239 a && continuation b).

(** The same after the lead byte of a four-byte character: no overlong
    form, nothing beyond U+10FFFF. *)
Definition second_of_four (a b : ascii) : bool :=
  (byte_in 240 240 a && byte_in 144 191 b)
  || (byte_in 241 243 a && continuation b)
  || (byte_in 244 244 a && byte_in 128 143 b).

(** The text a parameter may carry: legal UTF-8 without the NUL byte. *)
Fixpoint valid_text (s : string) : bool :=
  match s with
  | EmptyString => true
  | String a s1 =>
      if byte_in 1 127 a then valid_text s1
      else
        match s1 with
        | EmptyString => false
        | String b s2 =>
            if byte_in 194 223 a then continuation b && valid_text s2
            else
              match s2 with
              | EmptyString => false
              | String c s3 =>
                  if second_of_three a b then continuation c && valid_text s3
                  else
                    match s3 with
                    | EmptyString => false
                    | String d s4 =>
                        second_of_four a b && continuation c && continuation d
                        && valid_text s4
                    end
              end
        end
  end.

(** The number of characters: every byte but the continuation bytes
    starts one. *)
Fixpoint char_length (s : string) : nat :=
  match s with
  | EmptyString => 0
  | String c s' =>
      if continuation c then char_length s' else S (char_length s')
  end.

(** The first [n] characters, and what follows them. *)
Fixpoint take_chars (n : nat) (s : string) : string :=
  match s with
  | EmptyString => EmptyString
  | String c s' =>
      if continuation c then String c (take_chars n s')
      else
        match n with
        | O => EmptyString
        | S n' => String c (take_chars n' s')
        end
  end.

Fixpoint drop_chars (n : nat) (s : string) : string :=
  match s with
  | EmptyString => EmptyString
  | String c s' =>
      if continuation c then drop_chars n s'
      else
        match n with
        | O => s
        | S n' => drop_chars n' s'
        end
  end.

Fixpoint all_spaces (s : string) : bool :=
  match s with
  | EmptyString => true
  | String c s' => Ascii.eqb c " " && all_spaces s'
  end.

(** Storing a text in a [VARCHAR(n)] column: a text of at most [n]
    characters is stored as it is; a longer one is refused, unless the
    characters beyond the [n]-th are all spaces, in which case the first
    [n] characters are stored. *)
Definition varchar (n : nat) (s : string) : option string :=
  if (char_length s <=? n)%nat then Some s
  else if all_spaces (drop_chars n s) then Some (take_chars n s)
  else None.

Definition send (q : Statement) (db : DB) : DB :=
  {| users := users db; users_id_seq := users_id_seq db;
     reachable := reachable db; sent := q :: sent db |}.

Definition with_users (m : gmap Z Row) (db : DB) : DB :=
  {| users := m; users_id_seq := users_id_seq db;
     reachable := reachable db; sent := sent db |}.

Definition with_seq (n : Z) (db : DB) : DB :=
  {| users := users db; users_id_seq := n;
     reachable := reachable db; sent := sent db |}.

(** [Scan] of the seven columns
    [id, email, username, first_name, last_name, created_at, updated_at]
    into a zero [User]: it fails on the first NULL. *)
Definition scan7 (r : Z * Row) : result SqlError User :=
  match first_name r.2, last_name r.2, created_at r.2, updated_at r.2 with
  | Some fn, Some ln, Some c, Some u =>
      Ok (mkUser r.1 (email r.2) (username r.2) "" fn ln c u)
  | _, _, _, _ => Err ErrScan
  end.

(** [Scan] of the eight columns of Login, [password_hash] included. *)
Definition scan8 (r : Z * Row) : result SqlError User :=
  match first_name r.2, last_name r.2, created_at r.2, updated_at r.2 with
  | Some fn, Some ln, Some c, Some u =>
      Ok (mkUser r.1 (email r.2) (username r.2) (password_hash r.2) fn ln c u)
  | _, _, _, _ => Err ErrScan
  end.

(** Is there a row holding this email or this username? *)
Definition taken (m : gmap Z Row) (e u : string) : bool :=
  existsb (fun r => String.eqb (email r.2) e || String.eqb (username r.2) u)
          (map_to_list m).

(** The row of an INSERT once every value has been stored in its
    column, if the columns take them all. *)
Definition new_row (now : Time) (e u h fn ln : string) : option Row :=
  e' ← varchar 255 e;
  u' ← varchar 100 u;
  h' ← varchar 255 h;
  fn' ← varchar 100 fn;
  ln' ← varchar 100 ln;
  Some (mkRow e' u' h' (Some fn') (Some ln') (Some now) (Some now)).

(** [INSERT INTO users (email, username, password_hash, first_name,
    last_name) VALUES ($1..$5) RETURNING ...], issued at the store's
    time [now].  The server refuses a parameter that is not valid text
    when it binds it, and a value its column does not take when it
    builds the row; the uniqueness of [email] and [username] is that of
    the stored values.  The sequence value drawn for [id] is not given
    back when the statement fails. *)
Definition insert_user (now : Time) (e u h fn ln : string) (db : DB)
  : result SqlError User * DB :=
  let db := send (InsertUser e u h fn ln) db in
  if negb (reachable db) then (Err ErrDriver, db)
  else if negb (forallb valid_text [e; u; h; fn; ln]) then (Err ErrData, db)
  else
    let id := users_id_seq db in
    let db := with_seq (id + 1)%Z db in
    match new_row now e u h fn ln with
    | None => (Err ErrData, db)
    | Some row =>
        if taken (users db) (email row) (username row)
        then (Err ErrUniqueViolation, db)
        else
          match users db !! id with
          | Some _ => (Err ErrUniqueViolation, db)
          | None => (scan7 (id, row), with_users (<[id := row]> (users db)) db)
          end
    end.

(** [SELECT ... FROM users WHERE email = $1], first row, eight columns. *)
Definition select_by_email (e : string) (db : DB) : result SqlError User * DB :=
  let db := send (SelectByEmail e) db in
  if negb (reachable db) then (Err ErrDriver, db)
  else if negb (valid_text e) then (Err ErrData, db)
  else
    match List.find (fun r => String.eqb (email r.2) e) (map_to_list (users db)) with
    | Some r => (scan8 r, db)
    | None => (Err ErrNoRows, db)
    end.

(** [SELECT ... FROM users WHERE id = $1], seven columns. *)
Definition select_by_id (id : Z) (db : DB) : result SqlError User * DB :=
  let db := send (SelectByID id) db in
  if negb (reachable db) then (Err ErrDriver, db)
  else
    match users db !! id with
    | Some row => (scan7 (id, row), db)
    | None => (Err ErrNoRows, db)
    end.

(** [ORDER BY created_at DESC]: later instants first, NULL before any
    instant. *)
Definition created_desc_leb (x y : Z * Row) : bool :=
  match created_at x.2, created_at y.2 with
  | None, _ => true
  | Some _, None => false
  | Some a, Some b => (b <=? a)%Z
  end.

Definition created_desc (x y : Z * Row) : Prop :=
  Is_true (created_desc_leb x y).

#[export] Instance created_desc_dec : RelDecision created_desc :=
  fun x y => Is_true_dec (created_desc_leb x y).

(** [SELECT ... FROM users ORDER BY created_at DESC]: the cursor [rows]. *)
Definition select_all (db : DB) : result SqlError (list (Z * Row)) * DB :=
  let db := send SelectAll db in
  if negb (reachable db) then (Err ErrDriver, db)
  else (Ok (merge_sort created_desc (map_to_list (users db))), db).

Definition NULLIF (a b : string) : option string :=
  if String.eqb a b then None else Some a.

Definition COALESCE (a b : option string) : option string :=
  match a with
  | Some x => Some x
  | None => b
  end.

(** The [SET] clause of the update, evaluated on the old row. *)
Definition set_names (now : Time) (fn ln : string) (r : Row) : Row :=
  {| email := email r;
     username := username r;
     password_hash := password_hash r;
     first_name := COALESCE (NULLIF fn "") (first_name r);
     last_name := COALESCE (NULLIF ln "") (last_name r);
     created_at := created_at r;
     updated_at := Some now |}.

(** [UPDATE users SET ... WHERE id = $3 RETURNING ...], issued at the
    store's time [now]; the returned row is scanned by the caller's
    [QueryRow(...).Scan], after the statement has taken effect.  The
    server refuses a name that is not valid text when it binds it, and,
    for the row it updates, a name the [VARCHAR(100)] column does not
    take; nothing is written then.  The [SET] clause is evaluated on
    the names as the column stores them: a value kept from the row
    already is as the column stores it. *)
Definition update_names (now : Time) (fn ln : string) (id : Z) (db : DB)
  : result SqlError User * DB :=
  let db := send (UpdateNames fn ln id) db in
  if negb (reachable db) then (Err ErrDriver, db)
  else if negb (valid_text fn && valid_text ln) then (Err ErrData, db)
  else
    match users db !! id with
    | Some row =>
        match varchar 100 fn, varchar 100 ln with
        | Some fn', Some ln' =>
            let row' := set_names now fn' ln' row in
            (scan7 (id, row'), with_users (<[id := row']> (users db)) db)
        | _, _ => (Err ErrData, db)
        end
    | None => (Err ErrNoRows, db)
    end.

(** [DELETE FROM users WHERE id = $1]; the value is [RowsAffected]. *)
Definition delete_by_id (id : Z) (db : DB) : result SqlError Z * DB :=
  let db := send (DeleteByID id) db in
  if negb (reachable db) then (Err ErrDriver, db)
  else
    match users db !! id with
    | Some _ => (Ok 1%Z, with_users (delete id (users db)) db)
    | None => (Ok 0%Z, db)
    end.

End Store.

(** ** internal/handlers *)

Module Handlers.
Import Models Utils Store.

(** [net/http] status codes. *)
Definition StatusOK : nat := 200.
Definition StatusCreated : nat := 201.
Definition StatusBadRequest : nat := 400.
Definition StatusUnauthorized : nat := 401.
Definition StatusForbidden : nat := 403.
Definition StatusNotFound : nat := 404.
Definition StatusConflict : nat := 409.
Definition StatusInternalServerError : nat := 500.

(** What a handler writes: the status line and the JSON body. *)
Record Response : Type := mkResponse {
  status : nat;
  body : json
}.

(** What a handler reads of [r *http.Request]: the route variable
    [mux.Vars(r)["id"]], the value stored under ["userID"] in the
    context when it is an [int], and the outcome of decoding the body
    into the handler's request struct ([None] when [Decode] fails). *)
Record Request (B : Type) : Type := mkRequest {
  vars_id : string;
  ctx_userID : option Z;
  decoded : option B
}.
Arguments mkRequest {B} _ _ _.
Arguments vars_id {B} _.
Arguments ctx_userID {B} _.
Arguments decoded {B} _.

(** What a handler reads of its surroundings while serving one request:
    the variable [JWT_SECRET] (empty when unset), the store's clock
    ([NOW()], [CURRENT_TIMESTAMP]) and the two successive readings of
    [time.Now()] made by [GenerateToken]. *)
Record Env : Type := mkEnv {
  JWT_SECRET : string;
  NOW : Time;
  time_Now : Time * Time
}.

(** [internal/utils/hash.go] is not among the sources at hand; its two
    functions are kept as parameters, with the signatures their callers
    use: [HashPassword(password) (string, error)] and
    [CheckPassword(hash, password) bool]. *)
Class PasswordHasher : Type := {
  HashPassword : string -> option string;
  CheckPassword : string -> string -> bool
}.

(** [ErrorResponse{Error: msg}] *)
Definition ErrorResponse (msg : string) : json :=
  JObj [("error", JStr msg)].

Definition fail (code : nat) (msg : string) : Response :=
  mkResponse code (ErrorResponse msg).

(** [!ok || authUserID != id] *)
Definition not_owner (ctx : option Z) (id : Z) : bool :=
  match ctx with
  | Some authUserID => negb (authUserID =? id)%Z
  | None => true
  end.

Section WithPrimitives.
Context `{PasswordHasher} `{JwtLib}.

Definition Register (env : Env) (db : DB) (r : Request RegisterRequest)
  : Response * DB :=
  match decoded r with
  | None => (fail StatusBadRequest "Invalid request body", db)
  | Some req =>
      match Validate req with
      | Some msg => (fail StatusBadRequest msg, db)
      | None =>
          match HashPassword (reg_Password req) with
          | None => (fail StatusInternalServerError "Failed to process password", db)
          | Some hashedPassword =>
              match insert_user (NOW env) (reg_Email req) (reg_Username req)
                      hashedPassword (reg_FirstName req) (reg_LastName req) db with
              | (Err _, db') =>
                  (fail StatusConflict "Email or username already exists", db')
              | (Ok user, db') =>
                  match GenerateToken (JWT_SECRET env) (time_Now env).1
                          (time_Now env).2 (ID user) with
                  | Err _ =>
                      (fail StatusInternalServerError "Failed to generate token", db')
                  | Ok token =>
                      (mkResponse StatusCreated
                         (marshalLoginResponse (compact token) user), db')
                  end
              end
          end
      end
  end.

Definition Login (env : Env) (db : DB) (r : Request LoginRequest)
  : Response * DB :=
  match decoded r with
  | None => (fail StatusBadRequest "Invalid request body", db)
  | Some req =>
      if is_empty (login_Email req) || is_empty (login_Password req)
      then (fail StatusBadRequest "Email and password are required", db)
      else
        match select_by_email (login_Email req) db with
        | (Err ErrNoRows, db') =>
            (fail StatusUnauthorized "Invalid email or password", db')
        | (Err _, db') =>
            (fail StatusInternalServerError "Database error", db')
        | (Ok user, db') =>
            if negb (CheckPassword (PasswordHash user) (login_Password req))
            then (fail StatusUnauthorized "Invalid email or password", db')
            else
              match GenerateToken (JWT_SECRET env) (time_Now env).1
                      (time_Now env).2 (ID user) with
              | Err _ =>
                  (fail StatusInternalServerError "Failed to generate token", db')
              | Ok token =>
                  (mkResponse StatusOK
                     (marshalLoginResponse (compact token) user), db')
              end
        end
  end.

End WithPrimitives.

(** The loop [for rows.Next() { ... }] of GetUsers: a row whose [Scan]
    fails is passed over, the others are appended in cursor order. *)
Fixpoint scan_rows (rows : list (Z * Row)) : list User :=
  match rows with
  | [] => []
  | r :: rest =>
      match scan7 r with
      | Err _ => scan_rows rest
      | Ok user => user :: scan_rows rest
      end
  end.

Definition GetUsers {B} (db : DB) (r : Request B) : Response * DB :=
  match select_all db with
  | (Err _, db') => (fail StatusInternalServerError "Failed to fetch users", db')
  | (Ok rows, db') =>
      (mkResponse StatusOK (JArr (map marshalUser (scan_rows rows))), db')
  end.

Definition GetUser {B} (db : DB) (r : Request B) : Response * DB :=
  match Strconv.Atoi (vars_id r) with
  | None => (fail StatusBadRequest "Invalid user ID", db)
  | Some id =>
      match select_by_id id db with
      | (Err ErrNoRows, db') => (fail StatusNotFound "User not found", db')
      | (Err _, db') => (fail StatusInternalServerError "Database error", db')
      | (Ok user, db') => (mkResponse StatusOK (marshalUser user), db')
      end
  end.

Definition GetCurrentUser {B} (db : DB) (r : Request B) : Response * DB :=
  match ctx_userID r with
  | None => (fail StatusUnauthorized "Unauthorized", db)
  | Some userID =>
      match select_by_id userID db with
      | (Err _, db') => (fail StatusInternalServerError "Failed to fetch user", db')
      | (Ok user, db') => (mkResponse StatusOK (marshalUser user), db')
      end
  end.

Definition UpdateUser (env : Env) (db : DB) (r : Request UpdateUserRequest)
  : Response * DB :=
  match Strconv.Atoi (vars_id r) with
  | None => (fail StatusBadRequest "Invalid user ID", db)
  | Some id =>
      if not_owner (ctx_userID r) id
      then (fail StatusForbidden "You can only update your own profile", db)
      else
        match decoded r with
        | None => (fail StatusBadRequest "Invalid request body", db)
        | Some req =>
            match update_names (NOW env) (upd_FirstName req) (upd_LastName req) id db with
            | (Err _, db') =>
                (fail StatusInternalServerError "Failed to update user", db')
            | (Ok user, db') => (mkResponse StatusOK (marshalUser user), db')
            end
        end
  end.

Definition DeleteUser {B} (db : DB) (r : Request B) : Response * DB :=
  match Strconv.Atoi (vars_id r) with
  | None => (fail StatusBadRequest "Invalid user ID", db)
  | Some id =>
      if not_owner (ctx_userID r) id
      then (fail StatusForbidden "You can only delete your own account", db)
      else
        match delete_by_id id db with
        | (Err _, db') =>
            (fail StatusInternalServerError "Failed to delete user", db')
        | (Ok rowsAffected, db') =>
            if (rowsAffected =? 0)%Z
            then (fail StatusNotFound "User not found", db')
            else (mkResponse StatusOK
                    (JObj [("message", JStr "User deleted successfully")]), db')
        end
  end.

End Handlers.

(** ** The stated rules, in the words of the specification *)

Module Spec.
Import Regexp Models.

(** The six rules of a [RegisterRequest], in their stated order. *)
Definition email_nonempty (r : RegisterRequest) : Prop :=
  reg_Email r <> "".
Definition email_matches (r : RegisterRequest) : Prop :=
  Matches emailRegex (list_ascii_of_string (reg_Email r)).
Definition username_nonempty (r : RegisterRequest) : Prop :=
  reg_Username r <> "".
Definition username_min3 (r : RegisterRequest) : Prop :=
  (3 <= String.length (reg_Username r))%nat.
Definition password_nonempty (r : RegisterRequest) : Prop :=
  reg_Password r <> "".
Definition password_min6 (r : RegisterRequest) : Prop :=
  (6 <= String.length (reg_Password r))%nat.

(** The messages of the six rules, in the same order. *)
Definition rule_messages : list string :=
  [ "email is required";
    "invalid email format";
    "username is required";
    "username must be at least 3 characters";
    "password is required";
    "password must be at least 6 characters" ].

(** A decimal integer in text: an optional sign and at least one digit. *)
Definition decimal_integer (s : string) : Prop :=
  exists body,
    (s = body \/ s = String "+" body \/ s = String "-" body) /\
    body <> "" /\
    forallb (in_range "0" "9") (list_ascii_of_string body) = true.

(** The update of the names as the specification states it, for the
    owner of an existing row and a reachable store: on every call an
    empty name leaves the stored one, a non-empty name replaces it, and
    a successful update refreshes [updated_at]. *)
Definition names_overwritten_on_every_call : Prop :=
  forall (env : Handlers.Env) (db : Store.DB) (path : string) (id : Z)
         (req : UpdateUserRequest) (row : Store.Row),
    Strconv.Atoi path = Some id ->
    Store.reachable db = true ->
    Store.users db !! id = Some row ->
    let out := Handlers.UpdateUser env db
                 (Handlers.mkRequest path (Some id) (Some req)) in
    exists row',
      Store.users out.2 !! id = Some row' /\
      (upd_FirstName req = "" ->
         Store.first_name row' = Store.first_name row) /\
      (upd_FirstName req <> "" ->
         Store.first_name row' = Some (upd_FirstName req)) /\
      (upd_LastName req = "" ->
         Store.last_name row' = Store.last_name row) /\
      (upd_LastName req <> "" ->
         Store.last_name row' = Some (upd_LastName req)) /\
      (Handlers.status out.1 = 200 ->
         Store.updated_at row' = Some (Handlers.NOW env)).

(** The two names of an update as the columns store them, when the
    server takes both: valid text, within [VARCHAR(100)]. *)
Definition stored_names (req : UpdateUserRequest) : option (string * string) :=
  if Store.valid_text (upd_FirstName req) && Store.valid_text (upd_LastName req)
  then
    fn ← Store.varchar 100 (upd_FirstName req);
    ln ← Store.varchar 100 (upd_LastName req);
    Some (fn, ln)
  else None.

(** The columns of a row that an update of the names must not change;
    the key under which the row is stored is its [id]. *)
Definition frozen_columns (r : Store.Row)
  : string * string * string * option Time :=
  (Store.email r, Store.username r, Store.password_hash r, Store.created_at r).

(** The names under which a password hash could be serialised: the
    column name and the name of the Go field. *)
Definition hash_keys : list string := ["password_hash"; "PasswordHash"].

(** No member of the document, at any depth, is named like one. *)
Definition hides_password_hash (j : json) : Prop :=
  Forall (fun k => k ∉ hash_keys) (json_keys j).

Definition with_PasswordHash (h : string) (u : User) : User :=
  mkUser (ID u) (Email u) (Username u) h (FirstName u) (LastName u)
         (CreatedAt u) (UpdatedAt u).

(** The order of a listing: no user comes before one created later. *)
Definition newest_first (u v : User) : Prop := (CreatedAt v <= CreatedAt u)%Z.

(** The lifetime of a token as the specification states it, counted from
    the [issuedAt] the token carries: valid while the current time is
    before [issuedAt + 24h], rejected once it is past.  The two readings
    of the clock are taken in order. *)
Definition lifetime_counted_from_issuedAt : Prop :=
  forall (lib : Utils.JwtLib) (secret : string) (now1 now2 : Time) (uid : Z)
         (token : Utils.Token) (issuedAt now : Time),
    secret <> "" ->
    (now1 <= now2)%Z ->
    Utils.GenerateToken secret now1 now2 uid = Ok token ->
    Utils.IssuedAt (Utils.TokenClaims token) = Some issuedAt ->
    ((now < issuedAt + 24 * Utils.Hour)%Z ->
       Utils.ValidateToken secret now token = Ok uid) /\
    ((issuedAt + 24 * Utils.Hour < now)%Z ->
       exists e, Utils.ValidateToken secret now token = Err e).

(** The reading of the email pattern: a non-empty local part, an at
    sign, a non-empty domain, a dot, and at least two letters. *)
Definition email_shape (w : list ascii) : Prop :=
  exists l d t,
    w = l ++ "@"%char :: d ++ "."%char :: t /\
    l <> [] /\ forallb local_char l = true /\
    d <> [] /\ forallb domain_char d = true /\
    (2 <= length t)%nat /\ forallb alpha t = true.

End Spec.

(** ** Sample data for the worked examples *)

Module Fixtures.
Import Models Utils Store Handlers.

(** A stand-in for the password hasher: the digest is the password
    behind a fixed prefix. *)
Definition sample_hasher : PasswordHasher :=
  {| HashPassword := fun p => Some ("$2a$10$" +:+ p);
     CheckPassword := fun h p => String.eqb h ("$2a$10$" +:+ p) |}.

(** A stand-in for the token library: the digest is the key followed by
    the signed text, and every token has the same signed text. *)
Definition sample_jwt : JwtLib :=
  {| mac := fun _ key text => key +:+ "/" +:+ text;
     SigningString := fun _ _ => "header.payload";
     compact := fun t => "header.payload." +:+ Signature t |}.

Definition alice : Row :=
  mkRow "alice@example.com" "alice" "$2a$10$wonderland"
        (Some "Alice") (Some "Liddell") (Some 1000%Z) (Some 1000%Z).

(** A row with a NULL [first_name], as an import or a manual insert
    leaves it. *)
Definition bob : Row :=
  mkRow "bob@example.com" "bob" "$2a$10$builder"
        None (Some "Builder") (Some 3000%Z) (Some 3000%Z).

Definition carol : Row :=
  mkRow "carol@example.com" "carol" "$2a$10$christmas"
        (Some "") (Some "") (Some 2000%Z) (Some 2500%Z).

Definition sample_db : DB :=
  {| users := <[1%Z := alice]> (<[2%Z := bob]> (<[3%Z := carol]> ∅));
     users_id_seq := 4;
     reachable := true;
     sent := [] |}.

(** The same store while the server cannot be reached. *)
Definition unreachable_db : DB :=
  {| users := users sample_db;
     users_id_seq := users_id_seq sample_db;
     reachable := false;
     sent := [] |}.

(** A text of 101 letters, one more than a name column takes. *)
Definition long_name : string :=
  string_of_list_ascii (replicate 101 "a"%char).

(** A hundred letters and a space: a character too many, but only a
    space beyond the hundredth. *)
Definition padded_name : string :=
  string_of_list_ascii (replicate 100 "a"%char ++ [" "%char]).

(** A well-formed registration for an address and a name nobody holds. *)
Definition dave_request : RegisterRequest :=
  mkRegisterRequest "dave@example.com" "dave" "hunter22" "David" "".

Definition sample_env : Env :=
  {| JWT_SECRET := "s3cret"; NOW := 5000%Z; time_Now := (7000%Z, 7001%Z) |}.

End Fixtures.

(** ** Notions used to state what the handlers keep and what they write *)

Module Laws.
Import Models Store.

(** The UNIQUE constraints of the table: no two rows share an email, no
    two rows share a username. *)
Definition unique_emails (m : gmap Z Row) : Prop :=
  forall i j ri rj,
    m !! i = Some ri -> m !! j = Some rj -> email ri = email rj -> i = j.

Definition unique_usernames (m : gmap Z Row) : Prop :=
  forall i j ri rj,
    m !! i = Some ri -> m !! j = Some rj -> username ri = username rj -> i = j.

Definition consistent (db : DB) : Prop :=
  unique_emails (users db) /\ unique_usernames (users db).

(** The row a registration writes and the user it returns. *)
Definition registered_row (now : Time) (req : RegisterRequest) (hashed : string)
  : Row :=
  mkRow (reg_Email req) (reg_Username req) hashed
        (Some (reg_FirstName req)) (Some (reg_LastName req))
        (Some now) (Some now).

Definition registered_user (id : Z) (now : Time) (req : RegisterRequest) : User :=
  mkUser id (reg_Email req) (reg_Username req) ""
         (reg_FirstName req) (reg_LastName req) now now.

(** The five texts of a registration are valid text and within the
    widths of their columns, so that they are stored as they are. *)
Definition storable (req : RegisterRequest) (hashed : string) : Prop :=
  forallb valid_text
    [reg_Email req; reg_Username req; hashed;
     reg_FirstName req; reg_LastName req] = true /\
  (char_length (reg_Email req) <= 255)%nat /\
  (char_length (reg_Username req) <= 100)%nat /\
  (char_length hashed <= 255)%nat /\
  (char_length (reg_FirstName req) <= 100)%nat /\
  (char_length (reg_LastName req) <= 100)%nat.

(** A name column that holds a non-empty text. *)
Definition is_set (column : option string) : Prop :=
  exists s, column = Some s /\ s <> "".

(** A request leaves at most one more statement in the log. *)
Definition at_most_one_statement (db db' : DB) : Prop :=
  sent db' = sent db \/ exists q, sent db' = q :: sent db.

(** What a request that only reads may do to the handle. *)
Definition read_only (db db' : DB) : Prop :=
  users db' = users db /\
  users_id_seq db' = users_id_seq db /\
  reachable db' = reachable db /\
  at_most_one_statement db db'.

End Laws.

(** * Properties *)

(** ** The matcher computes the language of the expression *)

Section RegexpFacts.
Import Regexp.

Lemma Matches_Cat_inv r1 r2 w :
  Matches (Cat r1 r2) w ->
  exists w1 w2, w = w1 ++ w2 /\ Matches r1 w1 /\ Matches r2 w2.
Proof. inversion 1; subst; eauto. Qed.

Lemma Matches_Alt_inv r1 r2 w :
  Matches (Alt r1 r2) w -> Matches r1 w \/ Matches r2 w.
Proof. inversion 1; subst; eauto. Qed.

Lemma Matches_Class_inv p w :
  Matches (Class p) w -> exists c, w = [c] /\ p c = true.
Proof. inversion 1; subst; eauto. Qed.

(** A non-empty word of [r*] starts with a non-empty word of [r]. *)
Lemma Matches_Star_cons r c w :
  Matches (Star r) (c :: w) ->
  exists w1 w2, w = w1 ++ w2 /\ Matches r (c :: w1) /\ Matches (Star r) w2.
Proof.
  intros Hm. remember (Star r) as s eqn:Hs. remember (c :: w) as cw eqn:Hw.
  revert Hs c w Hw.
  induction Hm as [| | | | | |r' w1 w2 H1 _ H2 IH2]; intros Hs a v Hw;
    try discriminate.
  injection Hs as ->.
  destruct w1 as [|c1 w1]; simpl in Hw.
  - apply IH2; [reflexivity | exact Hw].
  - injection Hw as -> <-. eauto.
Qed.

Lemma nullable_spec r : nullable r = true <-> Matches r [].
Proof.
  induction r as [| |p|r1 IH1 r2 IH2|r1 IH1 r2 IH2|r IH]; simpl.
  - split; [discriminate | inversion 1].
  - split; [constructor | reflexivity].
  - split; [discriminate | inversion 1].
  - rewrite andb_true_iff, IH1, IH2. split.
    + intros [H1 H2]. change (@nil ascii) with (@nil ascii ++ []).
      by constructor.
    + intros (w1 & w2 & Hw & H1 & H2)%Matches_Cat_inv.
      symmetry in Hw. apply app_eq_nil in Hw as [-> ->]. by split.
  - rewrite orb_true_iff, IH1, IH2. split.
    + intros [H1 | H2]; [by apply MAltL | by apply MAltR].
    + apply Matches_Alt_inv.
  - split; [constructor | reflexivity].
Qed.

Lemma deriv_spec c r : forall w, Matches (deriv c r) w <-> Matches r (c :: w).
Proof.
  induction r as [| |p|r1 IH1 r2 IH2|r1 IH1 r2 IH2|r IH]; intros w; simpl.
  - split; inversion 1.
  - split; inversion 1.
  - destruct (p c) eqn:Hp; split.
    + inversion 1; subst. by constructor.
    + intros (c' & [= <- ->] & _)%Matches_Class_inv. constructor.
    + inversion 1.
    + intros (c' & [= <- ->] & Hp')%Matches_Class_inv. congruence.
  - assert (Hcat : forall w, Matches (Cat (deriv c r1) r2) w ->
                             Matches (Cat r1 r2) (c :: w)).
    { intros w' (w1 & w2 & -> & H1 & H2)%Matches_Cat_inv.
      change (c :: w1 ++ w2) with ((c :: w1) ++ w2).
      constructor; [by apply IH1 | done]. }
    assert (Hinv : Matches (Cat r1 r2) (c :: w) ->
                   Matches (Cat (deriv c r1) r2) w \/
                   (Matches r1 [] /\ Matches (deriv c r2) w)).
    { intros (w1 & w2 & Hw & H1 & H2)%Matches_Cat_inv.
      destruct w1 as [|c1 w1]; simpl in Hw.
      - right. subst w2. split; [done | by apply IH2].
      - injection Hw as <- ->. left. constructor; [by apply IH1 | done]. }
    destruct (nullable r1) eqn:Hn; split.
    + intros [H1 | H2]%Matches_Alt_inv; [by apply Hcat |].
      change (c :: w) with ([] ++ c :: w).
      constructor; [by apply nullable_spec | by apply IH2].
    + intros [H1 | [_ H2]]%Hinv; [by apply MAltL | by apply MAltR].
    + apply Hcat.
    + intros [H1 | [H0 _]]%Hinv; [done |].
      apply nullable_spec in H0. congruence.
  - split.
    + intros [H1 | H2]%Matches_Alt_inv;
        [apply MAltL; by apply IH1 | apply MAltR; by apply IH2].
    + intros [H1 | H2]%Matches_Alt_inv;
        [apply MAltL; by apply IH1 | apply MAltR; by apply IH2].
  - split.
    + intros (w1 & w2 & -> & H1 & H2)%Matches_Cat_inv.
      change (c :: w1 ++ w2) with ((c :: w1) ++ w2).
      constructor; [by apply IH | done].
    + intros (w1 & w2 & -> & H1 & H2)%Matches_Star_cons.
      constructor; [by apply IH | done].
Qed.

Lemma matchb_spec r w : matchb r w = true <-> Matches r w.
Proof.
  revert r. induction w as [|c w IH]; intros r; simpl.
  - apply nullable_spec.
  - rewrite IH. apply deriv_spec.
Qed.

End RegexpFacts.

(** ** Request validation *)

Section ValidateFacts.
Import Regexp Models Spec.

Lemma is_empty_true s : is_empty s = true <-> s = "".
Proof. destruct s; simpl; split; congruence. Qed.

Lemma is_empty_false s : is_empty s = false <-> s <> "".
Proof. destruct s; simpl; split; congruence. Qed.

Lemma isValidEmail_spec s :
  isValidEmail s = true <-> Matches emailRegex (list_ascii_of_string s).
Proof. apply matchb_spec. Qed.

Lemma isValidEmail_false s :
  isValidEmail s = false <-> ~ Matches emailRegex (list_ascii_of_string s).
Proof. rewrite <- isValidEmail_spec. destruct (isValidEmail s); split; congruence. Qed.

(** One outcome of [Validate] against the nine statements about it. *)
Local Ltac Validate_leaf :=
  let Hv := fresh "Hv" in
  split_and!;
  [ split; [intros Hv | intros Hv]; first
      [ discriminate Hv | reflexivity
      | solve [intuition (first [congruence | lia])] ] ..
  | intros ? Hv; first [discriminate Hv | injection Hv as <-; apply (bool_decide_unpack _); by vm_compute]
  | assumption ].

(** C8. [Validate] checks the six rules in the stated order and stops at
    the first one that fails: each message is returned exactly when its
    rule is the first violated one, the six messages are pairwise
    distinct, and [nil] is returned exactly when all six rules hold. *)
Theorem Validate_first_violation (r : RegisterRequest) :
  (Validate r = Some "email is required" <-> ~ email_nonempty r) /\
  (Validate r = Some "invalid email format" <->
     email_nonempty r /\ ~ email_matches r) /\
  (Validate r = Some "username is required" <->
     email_nonempty r /\ email_matches r /\ ~ username_nonempty r) /\
  (Validate r = Some "username must be at least 3 characters" <->
     email_nonempty r /\ email_matches r /\ username_nonempty r /\
     ~ username_min3 r) /\
  (Validate r = Some "password is required" <->
     email_nonempty r /\ email_matches r /\ username_nonempty r /\
     username_min3 r /\ ~ password_nonempty r) /\
  (Validate r = Some "password must be at least 6 characters" <->
     email_nonempty r /\ email_matches r /\ username_nonempty r /\
     username_min3 r /\ password_nonempty r /\ ~ password_min6 r) /\
  (Validate r = None <->
     email_nonempty r /\ email_matches r /\ username_nonempty r /\
     username_min3 r /\ password_nonempty r /\ password_min6 r) /\
  (forall msg, Validate r = Some msg -> msg ∈ rule_messages) /\
  NoDup rule_messages.
Proof.
  assert (Hnodup : NoDup rule_messages).
  { apply (bool_decide_unpack _). by vm_compute. }
  unfold Validate, email_nonempty, email_matches, username_nonempty,
    username_min3, password_nonempty, password_min6.
  destruct (is_empty (reg_Email r)) eqn:E1;
    [apply is_empty_true in E1; Validate_leaf | apply is_empty_false in E1].
  destruct (isValidEmail (reg_Email r)) eqn:E2; simpl;
    [apply isValidEmail_spec in E2 | apply isValidEmail_false in E2; Validate_leaf].
  destruct (is_empty (reg_Username r)) eqn:E3;
    [apply is_empty_true in E3; Validate_leaf | apply is_empty_false in E3].
  destruct (Nat.ltb_spec (String.length (reg_Username r)) 3) as [E4|E4];
    [Validate_leaf |].
  destruct (is_empty (reg_Password r)) eqn:E5;
    [apply is_empty_true in E5; Validate_leaf | apply is_empty_false in E5].
  destruct (Nat.ltb_spec (String.length (reg_Password r)) 6) as [E6|E6];
    Validate_leaf.
Qed.

End ValidateFacts.

(** ** What the email pattern accepts *)

Section EmailShape.
Import Regexp Models Spec.

Lemma Matches_Star_Class p w :
  Matches (Star (Class p)) w <-> forallb p w = true.
Proof.
  split.
  - intros Hm. remember (Star (Class p)) as s eqn:Hs. revert Hs.
    induction Hm as [| | | | | |r' w1 w2 H1 _ _ IH2]; intros Hs;
      try discriminate; [reflexivity |].
    injection Hs as ->.
    apply Matches_Class_inv in H1 as (a & -> & Ha). simpl.
    rewrite Ha. by apply IH2.
  - induction w as [|a w IH]; simpl; [constructor |].
    intros [Ha Hw]%andb_true_iff.
    change (a :: w) with ([a] ++ w).
    constructor; [by constructor | by apply IH].
Qed.

Lemma Matches_Plus_Class p w :
  Matches (Plus (Class p)) w <-> w <> [] /\ forallb p w = true.
Proof.
  unfold Plus. split.
  - intros (w1 & w2 & -> & (a & -> & Ha)%Matches_Class_inv
            & Hw%Matches_Star_Class)%Matches_Cat_inv.
    simpl. by rewrite Ha, Hw.
  - intros [Hne Hall]. destruct w as [|a w]; [done |].
    simpl in Hall. apply andb_true_iff in Hall as [Ha Hw].
    change (a :: w) with ([a] ++ w).
    constructor; [by constructor | by apply Matches_Star_Class].
Qed.

Lemma Matches_AtLeast2_Class p w :
  Matches (AtLeast2 (Class p)) w <-> (2 <= length w)%nat /\ forallb p w = true.
Proof.
  unfold AtLeast2. split.
  - intros (w1 & w' & -> & (a & -> & Ha)%Matches_Class_inv
            & (w2 & w3 & -> & (b & -> & Hb)%Matches_Class_inv
               & Hw%Matches_Star_Class)%Matches_Cat_inv)%Matches_Cat_inv.
    simpl. rewrite Ha, Hb, Hw. split; [lia | done].
  - intros [Hlen Hall]. destruct w as [|a [|b w]]; simpl in Hlen; try lia.
    simpl in Hall.
    apply andb_true_iff in Hall as [Ha [Hb Hw]%andb_true_iff].
    change (a :: b :: w) with ([a] ++ [b] ++ w).
    constructor; [by constructor |].
    constructor; [by constructor | by apply Matches_Star_Class].
Qed.

Lemma Matches_Lit c w : Matches (Lit c) w <-> w = [c].
Proof.
  unfold Lit. split.
  - intros (a & -> & Ha%Ascii.eqb_eq)%Matches_Class_inv. by subst.
  - intros ->. constructor. apply Ascii.eqb_refl.
Qed.

(** The pattern accepts exactly the texts [local@domain.tld] with a
    non-empty local part and domain over their character classes and a
    final label of at least two letters. *)
Lemma isValidEmail_shape s :
  isValidEmail s = true <-> email_shape (list_ascii_of_string s).
Proof.
  rewrite isValidEmail_spec. unfold emailRegex, email_shape.
  generalize (list_ascii_of_string s) as w. intros w. split.
  - intros (l & w1 & -> & [Hl1 Hl2]%Matches_Plus_Class
            & (x & w2 & -> & ->%Matches_Lit
               & (d & w3 & -> & [Hd1 Hd2]%Matches_Plus_Class
                  & (y & t & -> & ->%Matches_Lit
                     & [Ht1 Ht2]%Matches_AtLeast2_Class)%Matches_Cat_inv
                 )%Matches_Cat_inv)%Matches_Cat_inv)%Matches_Cat_inv.
    exists l, d, t. by split_and!.
  - intros (l & d & t & -> & Hl1 & Hl2 & Hd1 & Hd2 & Ht1 & Ht2).
    constructor; [by apply Matches_Plus_Class |].
    change ("@"%char :: d ++ "."%char :: t)
      with (["@"%char] ++ d ++ ["."%char] ++ t).
    constructor; [by apply Matches_Lit |].
    constructor; [by apply Matches_Plus_Class |].
    constructor; [by apply Matches_Lit | by apply Matches_AtLeast2_Class].
Qed.

End EmailShape.

(** ** Path identifiers *)

Section AtoiFacts.
Import Models Spec Strconv.

Lemma digit_Some c d : digit c = Some d -> in_range "0" "9" c = true.
Proof.
  unfold digit, in_range. intros Hd.
  destruct (_ && _) eqn:Hr in Hd; [|discriminate].
  apply andb_true_iff in Hr as [H1%Z.leb_le H2%Z.leb_le].
  change (N_of_ascii "0") with 48%N. change (N_of_ascii "9") with 57%N.
  apply andb_true_iff. split; apply N.leb_le; lia.
Qed.

Lemma digits_Some s : forall acc n,
  digits acc s = Some n ->
  forallb (in_range "0" "9") (list_ascii_of_string s) = true.
Proof.
  induction s as [|c s IH]; intros acc n; simpl; [done |].
  destruct (digit c) as [d|] eqn:Hd; [|discriminate].
  intros Hs. erewrite digit_Some by eassumption. simpl. eauto.
Qed.

(** Whatever [Atoi] accepts is a decimal integer, so a path component
    that is not one is rejected. *)
Lemma Atoi_Some_decimal s n : Atoi s = Some n -> decimal_integer s.
Proof.
  unfold Atoi, decimal_integer. destruct s as [|c rest]; [discriminate |].
  destruct (Ascii.eqb c "-") eqn:Hm; simpl.
  - apply Ascii.eqb_eq in Hm as ->.
    destruct rest as [|c' rest']; [discriminate |].
    destruct (digits 0 (String c' rest')) as [v|] eqn:Hd; [|discriminate].
    intros _. exists (String c' rest'). split_and!; [auto | done |].
    by eapply digits_Some.
  - destruct (Ascii.eqb c "+") eqn:Hp.
    + apply Ascii.eqb_eq in Hp as ->.
      destruct rest as [|c' rest']; [discriminate |].
      destruct (digits 0 (String c' rest')) as [v|] eqn:Hd; [|discriminate].
      intros _. exists (String c' rest'). split_and!; [auto | done |].
      by eapply digits_Some.
    + destruct (digits 0 (String c rest)) as [v|] eqn:Hd; [|discriminate].
      intros _. exists (String c rest). split_and!; [auto | done |].
      by eapply digits_Some.
Qed.

Lemma not_decimal_Atoi_None s : ~ decimal_integer s -> Atoi s = None.
Proof.
  intros Hn. destruct (Atoi s) as [n|] eqn:Ha; [|done].
  destruct Hn. by eapply Atoi_Some_decimal.
Qed.

End AtoiFacts.

(** ** Handlers: the checks made before the store is consulted *)

Section HandlerGuards.
Import Models Store Handlers Fixtures.

(** C10. When the path component of [/api/users/{id}] is not accepted by
    [Atoi], GET, PUT and DELETE answer 400 with the body
    [{"error":"Invalid user ID"}], whatever the identity in the context
    and whatever the body, and the store is exactly as before: no
    statement has been sent. *)
Theorem invalid_id_is_400 (path : string) (ctx : option Z) (env : Env) (db : DB) :
  Strconv.Atoi path = None ->
  let bad_request :=
    mkResponse 400 (JObj [("error", JStr "Invalid user ID")]) in
  (forall B (b : option B),
     GetUser db (mkRequest path ctx b) = (bad_request, db)) /\
  (forall b : option UpdateUserRequest,
     UpdateUser env db (mkRequest path ctx b) = (bad_request, db)) /\
  (forall B (b : option B),
     DeleteUser db (mkRequest path ctx b) = (bad_request, db)).
Proof.
  intros Hpath bad_request. unfold GetUser, UpdateUser, DeleteUser. simpl.
  rewrite Hpath. by split_and!.
Qed.

Lemma invalid_id_is_400_witness :
  (forall B (b : option B),
     GetUser sample_db (mkRequest "12a" (Some 1%Z) b)
     = (mkResponse 400 (JObj [("error", JStr "Invalid user ID")]), sample_db)) /\
  (forall b : option UpdateUserRequest,
     UpdateUser sample_env sample_db (mkRequest "12a" (Some 1%Z) b)
     = (mkResponse 400 (JObj [("error", JStr "Invalid user ID")]), sample_db)) /\
  (forall B (b : option B),
     DeleteUser sample_db (mkRequest "12a" (Some 1%Z) b)
     = (mkResponse 400 (JObj [("error", JStr "Invalid user ID")]), sample_db)).
Proof.
  apply (invalid_id_is_400 "12a" (Some 1%Z) sample_env sample_db).
  reflexivity.
Defined.

(** C5. On PUT and DELETE of [/api/users/{id}] with an integer [id], an
    authenticated subject other than [id] gets 403, whether the body
    decodes or not, and the store is exactly as before. *)
Theorem foreign_id_is_403
    (path : string) (id auth : Z) (env : Env) (db : DB) :
  Strconv.Atoi path = Some id ->
  auth <> id ->
  (forall b : option UpdateUserRequest,
     let out := UpdateUser env db (mkRequest path (Some auth) b) in
     status out.1 = 403 /\
     out = (fail StatusForbidden "You can only update your own profile", db)) /\
  (forall B (b : option B),
     let out := DeleteUser db (mkRequest path (Some auth) b) in
     status out.1 = 403 /\
     out = (fail StatusForbidden "You can only delete your own account", db)).
Proof.
  intros Hpath Hne. unfold UpdateUser, DeleteUser, not_owner. simpl.
  rewrite Hpath. apply Z.eqb_neq in Hne. rewrite Hne. simpl. by split_and!.
Qed.

Lemma foreign_id_is_403_witness :
  (forall b : option UpdateUserRequest,
     let out := UpdateUser sample_env sample_db (mkRequest "2" (Some 1%Z) b) in
     status out.1 = 403 /\
     out = (fail StatusForbidden "You can only update your own profile", sample_db)) /\
  (forall B (b : option B),
     let out := DeleteUser sample_db (mkRequest "2" (Some 1%Z) b) in
     status out.1 = 403 /\
     out = (fail StatusForbidden "You can only delete your own account", sample_db)).
Proof.
  apply (foreign_id_is_403 "2" 2%Z 1%Z sample_env sample_db).
  - reflexivity.
  - lia.
Defined.

End HandlerGuards.

(** ** What the statements that write can do *)

Section StatementOutcomes.
Import Models Store.

Lemma varchar_fits (n : nat) (s : string) :
  (char_length s <= n)%nat -> varchar n s = Some s.
Proof.
  intros Hlen. unfold varchar.
  by destruct (Nat.leb_spec (char_length s) n); [|lia].
Qed.

Lemma varchar_empty (n : nat) (s s' : string) :
  varchar n s = Some s' -> s = "" -> s' = "".
Proof. intros Hv ->. unfold varchar in Hv. simpl in Hv. congruence. Qed.

Lemma take_chars_nonempty (n : nat) (s : string) :
  (n < char_length s)%nat -> (0 < n)%nat -> take_chars n s <> "".
Proof.
  revert n. induction s as [|c s IH]; intros n Hlen Hn; simpl in *; [lia |].
  destruct (continuation c); [done |].
  destruct n; [lia | done].
Qed.

(** A non-empty name is stored as a non-empty name. *)
Lemma varchar_nonempty (s s' : string) :
  varchar 100 s = Some s' -> s <> "" -> s' <> "".
Proof.
  unfold varchar. destruct (Nat.leb_spec (char_length s) 100) as [_|Hlong].
  - by intros [= <-].
  - destruct (all_spaces _); [|discriminate].
    intros [= <-] _. apply take_chars_nonempty; lia.
Qed.

(** The UPDATE either fails and writes nothing, or rewrites the one row
    it addresses with the names as the column stores them. *)
Lemma update_names_outcome (now : Time) (fn ln : string) (id : Z) (db : DB) :
  (exists e, update_names now fn ln id db
             = (Err e, send (UpdateNames fn ln id) db)) \/
  (exists row fn' ln',
     reachable db = true /\
     valid_text fn = true /\ valid_text ln = true /\
     users db !! id = Some row /\
     varchar 100 fn = Some fn' /\ varchar 100 ln = Some ln' /\
     update_names now fn ln id db
     = (scan7 (id, set_names now fn' ln' row),
        with_users (<[id := set_names now fn' ln' row]> (users db))
          (send (UpdateNames fn ln id) db))).
Proof.
  unfold update_names. simpl.
  destruct (reachable db) eqn:Hup; simpl; [|eauto].
  destruct (valid_text fn) eqn:Hfn; simpl; [|eauto].
  destruct (valid_text ln) eqn:Hln; simpl; [|eauto].
  destruct (users db !! id) as [row|] eqn:Hrow; [|eauto].
  destruct (varchar 100 fn) as [fn'|] eqn:Hf; [|eauto].
  destruct (varchar 100 ln) as [ln'|] eqn:Hl; [|eauto].
  right. exists row, fn', ln'. by split_and!.
Qed.

(** The INSERT either fails and writes nothing, or adds the row of its
    values, as the columns store them, under the next [id]. *)
Lemma insert_user_outcome (now : Time) (e u h fn ln : string) (db : DB) :
  (exists err db', insert_user now e u h fn ln db = (Err err, db') /\
                   users db' = users db) \/
  (exists row,
     reachable db = true /\
     forallb valid_text [e; u; h; fn; ln] = true /\
     new_row now e u h fn ln = Some row /\
     taken (users db) (email row) (username row) = false /\
     users db !! users_id_seq db = None /\
     insert_user now e u h fn ln db
     = (scan7 (users_id_seq db, row),
        with_users (<[users_id_seq db := row]> (users db))
          (with_seq (users_id_seq db + 1)
             (send (InsertUser e u h fn ln) db)))).
Proof.
  unfold insert_user. cbn [reachable send users users_id_seq with_seq].
  destruct (reachable db) eqn:Hup; cbn [negb]; [|eauto].
  destruct (forallb valid_text [e; u; h; fn; ln]) eqn:Hvalid; cbn [negb];
    [|eauto].
  destruct (new_row now e u h fn ln) as [row|] eqn:Hrow; [|eauto].
  destruct (taken (users db) (email row) (username row)) eqn:Hfree; [eauto |].
  destruct (users db !! users_id_seq db) eqn:Hid; [eauto |].
  right. exists row. by split_and!.
Qed.

End StatementOutcomes.

(** ** UpdateUser and the stored row *)

Section UpdateFacts.
Import Models Store Handlers Spec Fixtures.

Lemma NULLIF_empty : NULLIF "" "" = None.
Proof. reflexivity. Qed.

Lemma NULLIF_nonempty s : s <> "" -> NULLIF s "" = Some s.
Proof.
  intros Hs. unfold NULLIF.
  destruct (String.eqb_spec s ""); [contradiction | reflexivity].
Qed.

(** C3, as the code has it. For an update by the owner that reaches an
    existing row: when the store takes both names, a name supplied as
    the empty string leaves the stored name untouched, a non-empty one
    is stored (as supplied when it has at most 100 characters, cut to
    them when only spaces follow), and [updated_at] is set to the
    store's current time in every case; the answer is 200 with the new
    row whenever that row can be scanned.  When the store refuses a
    name, no row changes and the answer is 500. *)
Theorem update_coalesces_names
    (env : Env) (db : DB) (path : string) (id : Z)
    (req : UpdateUserRequest) (row : Row) :
  Strconv.Atoi path = Some id ->
  reachable db = true ->
  users db !! id = Some row ->
  let out := UpdateUser env db (mkRequest path (Some id) (Some req)) in
  match stored_names req with
  | Some (fn, ln) =>
      exists row',
        users out.2 !! id = Some row' /\
        (upd_FirstName req = "" -> first_name row' = first_name row) /\
        (upd_FirstName req <> "" -> first_name row' = Some fn) /\
        ((char_length (upd_FirstName req) <= 100)%nat -> fn = upd_FirstName req) /\
        (upd_LastName req = "" -> last_name row' = last_name row) /\
        (upd_LastName req <> "" -> last_name row' = Some ln) /\
        ((char_length (upd_LastName req) <= 100)%nat -> ln = upd_LastName req) /\
        updated_at row' = Some (NOW env) /\
        out.1 = match scan7 (id, row') with
                | Ok user => mkResponse 200 (marshalUser user)
                | Err _ => fail 500 "Failed to update user"
                end
  | None =>
      users out.2 = users db /\ out.1 = fail 500 "Failed to update user"
  end.
Proof.
  intros Hpath Hup Hrow out. subst out.
  unfold UpdateUser, not_owner, update_names, stored_names. simpl.
  rewrite Hpath, Z.eqb_refl, Hup. simpl.
  destruct (valid_text (upd_FirstName req) && valid_text (upd_LastName req));
    simpl; [|done].
  rewrite Hrow.
  destruct (varchar 100 (upd_FirstName req)) as [fn|] eqn:Hfn; simpl; [|done].
  destruct (varchar 100 (upd_LastName req)) as [ln|] eqn:Hln; simpl; [|done].
  exists (set_names (NOW env) fn ln row).
  split_and!.
  - destruct (scan7 _); simpl; apply lookup_insert_eq.
  - intros Hempty. by rewrite (varchar_empty _ _ _ Hfn Hempty).
  - intros Hne. simpl. rewrite NULLIF_nonempty; [done |].
    by eapply varchar_nonempty.
  - intros Hlen. rewrite varchar_fits in Hfn by done. congruence.
  - intros Hempty. by rewrite (varchar_empty _ _ _ Hln Hempty).
  - intros Hne. simpl. rewrite NULLIF_nonempty; [done |].
    by eapply varchar_nonempty.
  - intros Hlen. rewrite varchar_fits in Hln by done. congruence.
  - reflexivity.
  - by destruct (scan7 _).
Qed.

Lemma update_coalesces_names_witness :
  let out := UpdateUser sample_env sample_db
               (mkRequest "1" (Some 1%Z)
                  (Some (mkUpdateUserRequest "" "" "" "Pleasance"))) in
  match stored_names (mkUpdateUserRequest "" "" "" "Pleasance") with
  | Some (fn, ln) =>
      exists row',
        users out.2 !! 1%Z = Some row' /\
        ("" = "" -> first_name row' = first_name alice) /\
        ("" <> "" -> first_name row' = Some fn) /\
        ((char_length "" <= 100)%nat -> fn = "") /\
        ("Pleasance" = "" -> last_name row' = last_name alice) /\
        ("Pleasance" <> "" -> last_name row' = Some ln) /\
        ((char_length "Pleasance" <= 100)%nat -> ln = "Pleasance") /\
        updated_at row' = Some 5000%Z /\
        out.1 = match scan7 (1%Z, row') with
                | Ok user => mkResponse 200 (marshalUser user)
                | Err _ => fail 500 "Failed to update user"
                end
  | None =>
      users out.2 = users sample_db /\ out.1 = fail 500 "Failed to update user"
  end.
Proof.
  apply (update_coalesces_names sample_env sample_db "1" 1%Z
           (mkUpdateUserRequest "" "" "" "Pleasance") alice).
  - reflexivity.
  - reflexivity.
  - vm_compute. reflexivity.
Defined.

(** C3, as stated, fails. The owner of row 1 supplies a first name of
    101 letters: the column takes at most 100 characters, the statement
    is refused, the answer is 500 and the stored first name is still
    "Alice", not the supplied one. *)
Lemma names_overwritten_on_every_call_fails : ~ names_overwritten_on_every_call.
Proof.
  intros Hclaim.
  destruct (Hclaim sample_env sample_db "1" 1%Z
              (mkUpdateUserRequest "" "" long_name "") alice)
    as (row' & Hrow' & _ & Hfirst & _).
  - reflexivity.
  - reflexivity.
  - by vm_compute.
  - vm_compute in Hrow'. injection Hrow' as <-.
    assert (Hne : long_name <> "") by (by vm_compute).
    specialize (Hfirst Hne). vm_compute in Hfirst. discriminate Hfirst.
Qed.

(** C4. Whatever the request, an update call leaves [email], [username],
    [password_hash] and [created_at] of every row as they were, keeps
    every row under its [id], creates and removes none, does not draw
    from the [id] sequence, and leaves rows other than the addressed
    one untouched altogether.  The [email] and [username] members of
    the body are never read. *)
Theorem update_frame (env : Env) (db : DB) (r : Request UpdateUserRequest) :
  let db' := (UpdateUser env db r).2 in
  (forall k, frozen_columns <$> (users db' !! k)
             = frozen_columns <$> (users db !! k)) /\
  (forall k, Strconv.Atoi (vars_id r) <> Some k ->
             users db' !! k = users db !! k) /\
  users_id_seq db' = users_id_seq db /\
  (forall (e u : string) (req : UpdateUserRequest),
     decoded r = Some req ->
     UpdateUser env db r
     = UpdateUser env db
         (mkRequest (vars_id r) (ctx_userID r)
            (Some (mkUpdateUserRequest e u (upd_FirstName req) (upd_LastName req))))).
Proof.
  assert (Hbody : forall (e u : string) (req : UpdateUserRequest),
     decoded r = Some req ->
     UpdateUser env db r
     = UpdateUser env db
         (mkRequest (vars_id r) (ctx_userID r)
            (Some (mkUpdateUserRequest e u (upd_FirstName req) (upd_LastName req))))).
  { intros e u req Hreq. unfold UpdateUser. simpl. by rewrite Hreq. }
  assert (Hout :
    users_id_seq (UpdateUser env db r).2 = users_id_seq db /\
    (users (UpdateUser env db r).2 = users db \/
     exists id row fn ln,
       Strconv.Atoi (vars_id r) = Some id /\ users db !! id = Some row /\
       users (UpdateUser env db r).2
       = <[id := set_names (NOW env) fn ln row]> (users db))).
  { unfold UpdateUser. simpl.
    destruct (Strconv.Atoi (vars_id r)) as [id|] eqn:Hid; [|by auto].
    destruct (not_owner (ctx_userID r) id); [by auto |].
    destruct (decoded r) as [req|] eqn:Hreq; [|by auto].
    destruct (update_names_outcome (NOW env) (upd_FirstName req)
                (upd_LastName req) id db)
      as [[e ->] | (row & fn & ln & _ & _ & _ & Hrow & _ & _ & ->)];
      [by auto |].
    split; [by destruct (scan7 _) |].
    right. exists id, row, fn, ln. by destruct (scan7 _). }
  simpl.
  destruct Hout as [Hseq [-> | (id & row & fn & ln & Hid & Hrow & ->)]];
    [by split_and! |].
  split_and!; [| |done|done].
  - intros k. destruct (decide (k = id)) as [->|Hk];
      [rewrite lookup_insert_eq, Hrow; reflexivity
      | rewrite lookup_insert_ne by done; reflexivity].
  - intros k Hk. rewrite lookup_insert_ne; [reflexivity | congruence].
Qed.

End UpdateFacts.

(** ** Handlers: how the outcomes of the store are answered *)

Section StatusMapping.
Import Models Utils Store Handlers Fixtures.
Context `{PasswordHasher} `{JwtLib}.

(** GET by id and DELETE tell an absent row apart from a failure. *)
Lemma GetUser_absent_404 {B} (db : DB) (path : string) (id : Z) ctx (b : option B) :
  Strconv.Atoi path = Some id ->
  reachable db = true ->
  users db !! id = None ->
  GetUser db (mkRequest path ctx b)
  = (fail 404 "User not found", send (SelectByID id) db).
Proof.
  intros Hpath Hup Hrow. unfold GetUser, select_by_id. simpl.
  by rewrite Hpath, Hup, Hrow.
Qed.

Lemma DeleteUser_absent_404 {B} (db : DB) (path : string) (id : Z) (b : option B) :
  Strconv.Atoi path = Some id ->
  reachable db = true ->
  users db !! id = None ->
  DeleteUser db (mkRequest path (Some id) b)
  = (fail 404 "User not found", send (DeleteByID id) db).
Proof.
  intros Hpath Hup Hrow. unfold DeleteUser, delete_by_id, not_owner. simpl.
  by rewrite Hpath, Z.eqb_refl, Hup, Hrow.
Qed.

(** The two other handlers that address one row do not: an absent row is
    answered like any failure of the statement. *)
Lemma GetCurrentUser_absent_500 {B} (db : DB) (path : string) (id : Z) (b : option B) :
  reachable db = true ->
  users db !! id = None ->
  GetCurrentUser db (mkRequest path (Some id) b)
  = (fail 500 "Failed to fetch user", send (SelectByID id) db).
Proof.
  intros Hup Hrow. unfold GetCurrentUser, select_by_id. simpl.
  by rewrite Hup, Hrow.
Qed.

Lemma UpdateUser_absent_500 (env : Env) (db : DB) (path : string) (id : Z)
    (req : UpdateUserRequest) :
  Strconv.Atoi path = Some id ->
  reachable db = true ->
  users db !! id = None ->
  UpdateUser env db (mkRequest path (Some id) (Some req))
  = (fail 500 "Failed to update user",
     send (UpdateNames (upd_FirstName req) (upd_LastName req) id) db).
Proof.
  intros Hpath Hup Hrow. unfold UpdateUser, update_names, not_owner. simpl.
  rewrite Hpath, Z.eqb_refl, Hup, Hrow. simpl.
  by destruct (valid_text (upd_FirstName req) && valid_text (upd_LastName req)).
Qed.

(** Register answers every failure of its INSERT with 409, the message
    of a duplicate included. *)
Lemma Register_insert_error_409 (env : Env) (db db' : DB) (e : SqlError)
    (req : RegisterRequest) (hashed : string) ctx path :
  Validate req = None ->
  HashPassword (reg_Password req) = Some hashed ->
  insert_user (NOW env) (reg_Email req) (reg_Username req) hashed
    (reg_FirstName req) (reg_LastName req) db = (Err e, db') ->
  Register env db (mkRequest path ctx (Some req))
  = (fail 409 "Email or username already exists", db').
Proof.
  intros Hv Hh Hins. unfold Register. simpl. by rewrite Hv, Hh, Hins.
Qed.

Lemma Register_duplicate_409 (env : Env) (db : DB)
    (req : RegisterRequest) (hashed : string) (row : Row) ctx path :
  Validate req = None ->
  HashPassword (reg_Password req) = Some hashed ->
  reachable db = true ->
  new_row (NOW env) (reg_Email req) (reg_Username req) hashed
    (reg_FirstName req) (reg_LastName req) = Some row ->
  taken (users db) (email row) (username row) = true ->
  (Register env db (mkRequest path ctx (Some req))).1
  = fail 409 "Email or username already exists".
Proof.
  intros Hv Hh Hup Hrow Htaken. unfold Register. simpl. rewrite Hv, Hh.
  destruct (insert_user_outcome (NOW env) (reg_Email req) (reg_Username req)
              hashed (reg_FirstName req) (reg_LastName req) db)
    as [(e & db' & -> & _) | (row' & _ & _ & Hrow' & Hfree & _)]; [done |].
  congruence.
Qed.

(** The failures of the hasher and of the signer are answered with 500
    and a fixed message. *)
Lemma Register_hasher_failure_500 (env : Env) (db : DB)
    (req : RegisterRequest) ctx path :
  Validate req = None ->
  HashPassword (reg_Password req) = None ->
  Register env db (mkRequest path ctx (Some req))
  = (fail 500 "Failed to process password", db).
Proof. intros Hv Hh. unfold Register. simpl. by rewrite Hv, Hh. Qed.

Lemma Register_signer_failure_500 (env : Env) (db db' : DB) (user : User)
    (req : RegisterRequest) (hashed : string) ctx path :
  Validate req = None ->
  HashPassword (reg_Password req) = Some hashed ->
  insert_user (NOW env) (reg_Email req) (reg_Username req) hashed
    (reg_FirstName req) (reg_LastName req) db = (Ok user, db') ->
  JWT_SECRET env = "" ->
  Register env db (mkRequest path ctx (Some req))
  = (fail 500 "Failed to generate token", db').
Proof.
  intros Hv Hh Hins Hs. unfold Register, GenerateToken. simpl.
  by rewrite Hv, Hh, Hins, Hs.
Qed.

(** With the server out of reach, every handler but Register answers
    500 once it gets to its statement. *)
Lemma unreachable_store_500 (env : Env) (db : DB) :
  reachable db = false ->
  (forall (r : Request LoginRequest) req,
     decoded r = Some req ->
     is_empty (login_Email req) || is_empty (login_Password req) = false ->
     (Login env db r).1 = fail 500 "Database error") /\
  (forall B (r : Request B), (GetUsers db r).1 = fail 500 "Failed to fetch users") /\
  (forall B (r : Request B) id,
     Strconv.Atoi (vars_id r) = Some id ->
     (GetUser db r).1 = fail 500 "Database error") /\
  (forall B (r : Request B) id,
     ctx_userID r = Some id ->
     (GetCurrentUser db r).1 = fail 500 "Failed to fetch user") /\
  (forall (r : Request UpdateUserRequest) id req,
     Strconv.Atoi (vars_id r) = Some id -> ctx_userID r = Some id ->
     decoded r = Some req ->
     (UpdateUser env db r).1 = fail 500 "Failed to update user") /\
  (forall B (r : Request B) id,
     Strconv.Atoi (vars_id r) = Some id -> ctx_userID r = Some id ->
     (DeleteUser db r).1 = fail 500 "Failed to delete user").
Proof.
  intros Hdown. split_and!.
  - intros r req Hr Hne. unfold Login, select_by_email. simpl.
    by rewrite Hr, Hne, Hdown.
  - intros B r. unfold GetUsers, select_all. simpl. by rewrite Hdown.
  - intros B r id Hid. unfold GetUser, select_by_id. simpl.
    by rewrite Hid, Hdown.
  - intros B r id Hctx. unfold GetCurrentUser, select_by_id. simpl.
    by rewrite Hctx, Hdown.
  - intros r id req Hid Hctx Hr.
    unfold UpdateUser, update_names, not_owner. simpl.
    by rewrite Hid, Hctx, Z.eqb_refl, Hr, Hdown.
  - intros B r id Hid Hctx. unfold DeleteUser, delete_by_id, not_owner. simpl.
    by rewrite Hid, Hctx, Z.eqb_refl, Hdown.
Qed.

End StatusMapping.

Section StatusMappingExamples.
Import Models Utils Store Handlers Fixtures.

(** C1 (the code departs from it). No row has the id 999.  GET by id
    answers 404, but [/api/users/me] for the subject 999 and PUT on
    [/api/users/999] by the subject 999 both answer 500. *)
Theorem absent_user_me_and_update_answer_500 :
  users sample_db !! 999%Z = None /\
  (GetUser sample_db (mkRequest "999" (Some 999%Z) (@None unit))).1
  = fail 404 "User not found" /\
  (GetCurrentUser sample_db (mkRequest "" (Some 999%Z) (@None unit))).1
  = fail 500 "Failed to fetch user" /\
  (UpdateUser sample_env sample_db
     (mkRequest "999" (Some 999%Z)
        (Some (mkUpdateUserRequest "" "" "Ann" "")))).1
  = fail 500 "Failed to update user".
Proof. split_and!; by vm_compute. Qed.

(** C2 (the code departs from it). A valid registration for a free
    address and a free name, sent while the server cannot be reached,
    is answered 409 "Email or username already exists" and not 500. *)
Theorem Register_unreachable_store_answers_409 :
  Validate dave_request = None /\
  taken (users unreachable_db) (reg_Email dave_request)
    (reg_Username dave_request) = false /\
  (@Register sample_hasher sample_jwt sample_env unreachable_db
     (mkRequest "" None (Some dave_request))).1
  = fail 409 "Email or username already exists".
Proof. split_and!; by vm_compute. Qed.

End StatusMappingExamples.

(** ** The password hash never leaves the service *)

Section Serialisation.
Import Models Utils Store Handlers Spec.

Lemma not_hash_key (k : string) :
  bool_decide (k ∈ hash_keys) = false -> k ∉ hash_keys.
Proof. intros Hk Hin. by rewrite (bool_decide_eq_true_2 _ Hin) in Hk. Qed.

Local Ltac keys_clean :=
  repeat first [ apply Forall_nil_2
               | apply Forall_cons_2; [by apply not_hash_key |] ].

Lemma marshalUser_hides (u : User) : hides_password_hash (marshalUser u).
Proof.
  unfold hides_password_hash, marshalUser, omitempty. simpl.
  destruct (is_empty (FirstName u)), (is_empty (LastName u)); simpl; keys_clean.
Qed.

Lemma marshalUser_ignores_hash (h : string) (u : User) :
  marshalUser (with_PasswordHash h u) = marshalUser u.
Proof. reflexivity. Qed.

Lemma marshal_users_hides (us : list User) :
  hides_password_hash (JArr (map marshalUser us)).
Proof.
  unfold hides_password_hash. cbn [json_keys].
  induction us as [|u us IH]; [constructor |].
  cbn [map flat_map].
  apply Forall_app. split; [apply marshalUser_hides | exact IH].
Qed.

Lemma marshalLoginResponse_hides (token : string) (u : User) :
  hides_password_hash (marshalLoginResponse token u).
Proof.
  unfold hides_password_hash, marshalLoginResponse.
  cbn [json_keys flat_map fst snd]. rewrite app_nil_r.
  apply Forall_cons_2; [by apply not_hash_key |].
  apply Forall_cons_2; [by apply not_hash_key |].
  apply marshalUser_hides.
Qed.

Lemma fail_hides (code : nat) (msg : string) :
  hides_password_hash (body (fail code msg)).
Proof. unfold hides_password_hash. simpl. keys_clean. Qed.

Local Ltac response_clean :=
  repeat case_match; simpl;
  first [ apply fail_hides | apply marshalUser_hides | apply marshal_users_hides
        | apply marshalLoginResponse_hides
        | unfold hides_password_hash; simpl; keys_clean ].

(** C7. The JSON written for a [User] does not depend on its password
    hash and has no member named after it; and the body of every
    response of every handler, successful or not, has no such member at
    any depth. *)
Theorem responses_hide_password_hash :
  (forall h u, marshalUser (with_PasswordHash h u) = marshalUser u) /\
  (forall u, hides_password_hash (marshalUser u)) /\
  (forall (hasher : PasswordHasher) (lib : JwtLib) env db r,
     hides_password_hash (body (Register env db r).1)) /\
  (forall (hasher : PasswordHasher) (lib : JwtLib) env db r,
     hides_password_hash (body (Login env db r).1)) /\
  (forall B db (r : Request B), hides_password_hash (body (GetUsers db r).1)) /\
  (forall B db (r : Request B), hides_password_hash (body (GetUser db r).1)) /\
  (forall B db (r : Request B),
     hides_password_hash (body (GetCurrentUser db r).1)) /\
  (forall env db r, hides_password_hash (body (UpdateUser env db r).1)) /\
  (forall B db (r : Request B), hides_password_hash (body (DeleteUser db r).1)).
Proof.
  split_and!.
  - intros h u. apply marshalUser_ignores_hash.
  - apply marshalUser_hides.
  - intros hasher lib env db r. unfold Register. response_clean.
  - intros hasher lib env db r. unfold Login. response_clean.
  - intros B db r. unfold GetUsers. response_clean.
  - intros B db r. unfold GetUser. response_clean.
  - intros B db r. unfold GetCurrentUser. response_clean.
  - intros env db r. unfold UpdateUser. response_clean.
  - intros B db r. unfold DeleteUser. response_clean.
Qed.

End Serialisation.

(** ** Listing *)

Section Listing.
Import Models Store Handlers Spec Fixtures.

#[local] Instance created_desc_trans : Transitive created_desc.
Proof.
  intros x y z. unfold created_desc, created_desc_leb.
  destruct (created_at x.2), (created_at y.2), (created_at z.2);
    simpl; try done.
  rewrite !Is_true_true, !Z.leb_le. lia.
Qed.

#[local] Instance created_desc_total : Total created_desc.
Proof.
  intros x y. unfold created_desc, created_desc_leb.
  destruct (created_at x.2), (created_at y.2); simpl; auto.
  rewrite !Is_true_true, !Z.leb_le. lia.
Qed.

Lemma scan7_Ok (r : Z * Row) (u : User) :
  scan7 r = Ok u ->
  ID u = r.1 /\ created_at r.2 = Some (CreatedAt u).
Proof.
  unfold scan7. repeat case_match; try discriminate.
  intros [= <-]. by subst.
Qed.

Lemma elem_of_scan_rows (rows : list (Z * Row)) (u : User) :
  u ∈ scan_rows rows <-> exists r, r ∈ rows /\ scan7 r = Ok u.
Proof.
  induction rows as [|r rows IH]; simpl.
  - split; [by intros ?%not_elem_of_nil | by intros (? & ?%not_elem_of_nil & _)].
  - destruct (scan7 r) as [v|e] eqn:Hr.
    + rewrite elem_of_cons, IH. split.
      * intros [-> | (r' & Hin & Hs)];
          [exists r; split; [left | done] | exists r'; split; [by right | done]].
      * intros (r' & [-> | Hin]%elem_of_cons & Hs);
          [left; congruence | right; eauto].
    + rewrite IH. split.
      * intros (r' & Hin & Hs). exists r'. split; [by right | done].
      * intros (r' & [-> | Hin]%elem_of_cons & Hs); [congruence | eauto].
Qed.

Lemma scan_rows_sorted (rows : list (Z * Row)) :
  StronglySorted created_desc rows ->
  StronglySorted newest_first (scan_rows rows).
Proof.
  induction 1 as [|r rows Hs IH Hall]; simpl; [constructor |].
  destruct (scan7 r) as [u|e] eqn:Hr; [|exact IH].
  constructor; [exact IH |].
  apply Forall_forall. intros v (r' & Hin & Hv)%elem_of_scan_rows.
  rewrite Forall_forall in Hall. specialize (Hall r' Hin).
  apply scan7_Ok in Hr as [_ Hc], Hv as [_ Hc'].
  unfold created_desc, created_desc_leb in Hall. rewrite Hc, Hc' in Hall.
  unfold newest_first. by apply Z.leb_le, Is_true_true.
Qed.

Lemma scan_rows_NoDup (rows : list (Z * Row)) :
  NoDup rows.*1 -> NoDup (scan_rows rows).
Proof.
  induction rows as [|r rows IH]; simpl; [constructor |].
  intros [Hnotin Hnd]%NoDup_cons.
  destruct (scan7 r) as [u|e] eqn:Hr; [|by apply IH].
  apply NoDup_cons. split; [|by apply IH].
  intros (r' & Hin & Hu)%elem_of_scan_rows. apply Hnotin.
  apply scan7_Ok in Hr as [Hid _], Hu as [Hid' _].
  rewrite <- Hid, Hid'. by apply list_elem_of_fmap_2.
Qed.

(** C9. When the statement goes through, GetUsers answers 200 with the
    array of the users it could scan, in the order of the cursor: no
    user before one created later, every stored row that scans present
    exactly once and nothing else, rows that do not scan left out; over
    an empty table the array is empty. *)
Theorem GetUsers_lists_newest_first {B} (db : DB) (r : Request B) :
  reachable db = true ->
  exists us : list User,
    GetUsers db r
    = (mkResponse 200 (JArr (map marshalUser us)), send SelectAll db) /\
    StronglySorted newest_first us /\
    (forall u, u ∈ us <->
       exists row, users db !! ID u = Some row /\ scan7 (ID u, row) = Ok u) /\
    NoDup us /\
    (users db = ∅ -> us = []).
Proof.
  intros Hup.
  exists (scan_rows (merge_sort created_desc (map_to_list (users db)))).
  split_and!.
  - unfold GetUsers, select_all. simpl. by rewrite Hup.
  - apply scan_rows_sorted, StronglySorted_merge_sort; apply _.
  - intros u. rewrite elem_of_scan_rows. split.
    + intros ([id row] & Hin & Hu).
      rewrite merge_sort_Permutation in Hin.
      apply elem_of_map_to_list in Hin.
      destruct (scan7_Ok _ _ Hu) as [Hid _]. simpl in Hid. subst id.
      by exists row.
    + intros (row & Hrow & Hu). exists (ID u, row). split; [|done].
      rewrite merge_sort_Permutation. by apply elem_of_map_to_list.
  - apply scan_rows_NoDup.
    rewrite merge_sort_Permutation. apply NoDup_fst_map_to_list.
  - intros ->. by rewrite map_to_list_empty.
Qed.

Lemma GetUsers_lists_newest_first_witness :
  exists us : list User,
    GetUsers sample_db (mkRequest "" (Some 1%Z) (@None unit))
    = (mkResponse 200 (JArr (map marshalUser us)), send SelectAll sample_db) /\
    StronglySorted newest_first us /\
    (forall u, u ∈ us <->
       exists row, users sample_db !! ID u = Some row /\
                   scan7 (ID u, row) = Ok u) /\
    NoDup us /\
    (users sample_db = ∅ -> us = []).
Proof.
  apply (GetUsers_lists_newest_first sample_db
           (mkRequest "" (Some 1%Z) (@None unit))).
  reflexivity.
Defined.

(** The listing of the sample table: carol, created after alice, comes
    first; bob, whose [first_name] is NULL, is left out. *)
Example GetUsers_sample :
  (GetUsers sample_db (mkRequest "" (Some 1%Z) (@None unit))).1
  = mkResponse 200
      (JArr [ JObj [("id", JNum 3%Z); ("email", JStr "carol@example.com");
                    ("username", JStr "carol");
                    ("created_at", JTime 2000%Z); ("updated_at", JTime 2500%Z)];
              JObj [("id", JNum 1%Z); ("email", JStr "alice@example.com");
                    ("username", JStr "alice");
                    ("first_name", JStr "Alice"); ("last_name", JStr "Liddell");
                    ("created_at", JTime 1000%Z); ("updated_at", JTime 1000%Z)] ]).
Proof. by vm_compute. Qed.

End Listing.

(** ** Tokens *)

Section TokenFacts.
Import Models Utils Spec Fixtures.

Lemma Truncate_eq (t d : Z) : (d <> 0)%Z -> Truncate t d = (d * (t / d))%Z.
Proof. intros Hd. unfold Truncate. rewrite Z.mod_eq by done. lia. Qed.

Lemma Truncate_le (t d : Z) : (0 < d)%Z -> (Truncate t d <= t)%Z.
Proof. intros Hd. unfold Truncate. pose proof (Z.mod_pos_bound t d Hd). lia. Qed.

Lemma Truncate_mono (t1 t2 d : Z) :
  (0 < d)%Z -> (t1 <= t2)%Z -> (Truncate t1 d <= Truncate t2 d)%Z.
Proof.
  intros Hd Hle. rewrite !Truncate_eq by lia.
  apply Z.mul_le_mono_nonneg_l; [lia |]. by apply Z.div_le_mono.
Qed.

(** A whole day is a whole number of seconds, so it commutes with the
    truncation of a token date. *)
Lemma NewNumericDate_Add_day (t : Time) :
  NewNumericDate (Add t (24 * Hour)) = (NewNumericDate t + 24 * Hour)%Z.
Proof.
  unfold NewNumericDate, Truncate, Add.
  replace (t + 24 * Hour)%Z with (t + 86400 * Second)%Z by (unfold Hour; lia).
  rewrite Z_mod_plus_full. unfold Hour. lia.
Qed.

Lemma is_empty_nonempty (s : string) : s <> "" -> is_empty s = false.
Proof. by destruct s. Qed.

Section WithJwtLib.
Context `{JwtLib}.

Lemma GenerateToken_Ok (secret : string) (now1 now2 : Time) (uid : Z) :
  secret <> "" ->
  GenerateToken secret now1 now2 uid
  = Ok (SignedString SigningMethodHS256
          (mkClaims uid (Some (NewNumericDate (Add now1 (24 * Hour)))) None
                    (Some (NewNumericDate now2)))
          secret).
Proof. intros Hs. unfold GenerateToken. by rewrite is_empty_nonempty. Qed.

(** A token signed with the secret is judged by its dates alone. *)
Lemma ValidateToken_signed (secret : string) (c : Claims) (now : Time) :
  secret <> "" ->
  ValidateToken secret now (SignedString SigningMethodHS256 c secret)
  = match validateClaims now c with
    | Some e => Err e
    | None => Ok (UserID c)
    end.
Proof.
  intros Hs. unfold ValidateToken, SignedString. simpl.
  by rewrite is_empty_nonempty, String.eqb_refl.
Qed.

(** The lifetime of a token as the code has it. With a non-empty
    secret, [GenerateToken] returns a token whose [expiresAt] is the first reading of the clock
    plus 24 hours, in whole seconds; [ValidateToken] returns the user id
    at every instant before [expiresAt] and rejects the token as expired
    from [expiresAt] on.  With the readings taken in order this rejects
    every instant past [issuedAt + 24h]; and [expiresAt] is
    [issuedAt + 24h] when both readings fall in the same second. *)
Theorem token_valid_until_expiresAt
    (secret : string) (now1 now2 : Time) (uid : Z) :
  secret <> "" ->
  exists (token : Token) (expiresAt issuedAt : Time),
    GenerateToken secret now1 now2 uid = Ok token /\
    ExpiresAt (TokenClaims token) = Some expiresAt /\
    IssuedAt (TokenClaims token) = Some issuedAt /\
    expiresAt = (NewNumericDate now1 + 24 * Hour)%Z /\
    issuedAt = NewNumericDate now2 /\
    (forall now, (now < expiresAt)%Z ->
       ValidateToken secret now token = Ok uid) /\
    (forall now, (expiresAt <= now)%Z ->
       ValidateToken secret now token = Err ErrTokenExpired) /\
    ((now1 <= now2)%Z ->
       forall now, (issuedAt + 24 * Hour < now)%Z ->
       ValidateToken secret now token = Err ErrTokenExpired) /\
    (NewNumericDate now1 = NewNumericDate now2 ->
       expiresAt = (issuedAt + 24 * Hour)%Z).
Proof.
  intros Hs.
  assert (Hvalid : forall now, (now < NewNumericDate now1 + 24 * Hour)%Z ->
    validateClaims now
      (mkClaims uid (Some (NewNumericDate (Add now1 (24 * Hour)))) None
         (Some (NewNumericDate now2))) = None).
  { intros now Hnow. unfold validateClaims. simpl.
    rewrite NewNumericDate_Add_day.
    by destruct (Z.ltb_spec now (NewNumericDate now1 + 24 * Hour)); [|lia]. }
  assert (Hexpired : forall now, (NewNumericDate now1 + 24 * Hour <= now)%Z ->
    validateClaims now
      (mkClaims uid (Some (NewNumericDate (Add now1 (24 * Hour)))) None
         (Some (NewNumericDate now2))) = Some ErrTokenExpired).
  { intros now Hnow. unfold validateClaims. simpl.
    rewrite NewNumericDate_Add_day.
    by destruct (Z.ltb_spec now (NewNumericDate now1 + 24 * Hour)); [lia|]. }
  eexists _, (NewNumericDate now1 + 24 * Hour)%Z, (NewNumericDate now2).
  split; [by apply GenerateToken_Ok |]. simpl. split_and!.
  - by rewrite NewNumericDate_Add_day.
  - reflexivity.
  - reflexivity.
  - reflexivity.
  - intros now Hnow. rewrite ValidateToken_signed by done.
    by rewrite Hvalid.
  - intros now Hnow. rewrite ValidateToken_signed by done.
    by rewrite Hexpired.
  - intros Hord now Hnow. rewrite ValidateToken_signed by done.
    rewrite Hexpired; [done |].
    pose proof (Truncate_mono now1 now2 Second eq_refl Hord) as Hm.
    unfold NewNumericDate in *. lia.
  - intros ->. reflexivity.
Qed.

End WithJwtLib.

Lemma token_valid_until_expiresAt_witness :
  exists (token : Token) (expiresAt issuedAt : Time),
    @GenerateToken sample_jwt "s3cret" 7000%Z 7001%Z 42%Z = Ok token /\
    ExpiresAt (TokenClaims token) = Some expiresAt /\
    IssuedAt (TokenClaims token) = Some issuedAt /\
    expiresAt = (NewNumericDate 7000 + 24 * Hour)%Z /\
    issuedAt = NewNumericDate 7001%Z /\
    (forall now, (now < expiresAt)%Z ->
       @ValidateToken sample_jwt "s3cret" now token = Ok 42%Z) /\
    (forall now, (expiresAt <= now)%Z ->
       @ValidateToken sample_jwt "s3cret" now token = Err ErrTokenExpired) /\
    ((7000 <= 7001)%Z ->
       forall now, (issuedAt + 24 * Hour < now)%Z ->
       @ValidateToken sample_jwt "s3cret" now token = Err ErrTokenExpired) /\
    (NewNumericDate 7000%Z = NewNumericDate 7001%Z ->
       expiresAt = (issuedAt + 24 * Hour)%Z).
Proof.
  apply (@token_valid_until_expiresAt sample_jwt "s3cret" 7000%Z 7001%Z 42%Z).
  discriminate.
Defined.

(** The truncation alone already shortens the day: a token made at
    0.999999999 s, with both readings equal, is rejected at 86400 s,
    less than 24 hours after it was made. *)
Example token_rejected_within_a_day_of_issuance :
  (86400000000000 < 999999999 + 24 * Hour)%Z /\
  (exists token,
     @GenerateToken sample_jwt "s3cret" 999999999%Z 999999999%Z 42%Z = Ok token /\
     @ValidateToken sample_jwt "s3cret" 86400000000000%Z token
     = Err ErrTokenExpired).
Proof. split; [by vm_compute | eexists; split; by vm_compute]. Qed.

(** The lifetime counted from [issuedAt] does not hold of every run:
    with the readings below the token is rejected at an instant before
    [issuedAt + 24h]. *)
Lemma lifetime_counted_from_issuedAt_fails : ~ lifetime_counted_from_issuedAt.
Proof.
  intros Hclaim.
  destruct (Hclaim sample_jwt "s3cret" 999999999%Z 1000000000%Z 42%Z
              (@SignedString sample_jwt SigningMethodHS256
                 (mkClaims 42 (Some 86400000000000%Z) None (Some 1000000000%Z))
                 "s3cret")
              1000000000%Z 86400000000000%Z) as [Hvalid _].
  - discriminate.
  - lia.
  - by vm_compute.
  - reflexivity.
  - assert (Hlt : (86400000000000 < 1000000000 + 24 * Hour)%Z)
      by (by vm_compute).
    specialize (Hvalid Hlt). vm_compute in Hvalid. discriminate Hvalid.
Qed.

(** C6 (the code departs from it). The clock reads 0.999999999 s when
    [GenerateToken] computes [expiresAt] and 1.000000000 s when it
    computes [issuedAt]: the token carries [issuedAt = 1 s] and
    [expiresAt = 86400 s], one second short of [issuedAt + 24h].  At
    86400 s sharp the current time is before [issuedAt + 24h = 86401 s],
    and [ValidateToken] rejects the token as expired. *)
Theorem token_expires_a_second_before_issuedAt_plus_24h :
  exists token : Token,
    @GenerateToken sample_jwt "s3cret" 999999999%Z 1000000000%Z 42%Z = Ok token /\
    IssuedAt (TokenClaims token) = Some 1000000000%Z /\
    ExpiresAt (TokenClaims token) = Some 86400000000000%Z /\
    (86400000000000 < 1000000000 + 24 * Hour)%Z /\
    @ValidateToken sample_jwt "s3cret" 86400000000000%Z token
    = Err ErrTokenExpired.
Proof. eexists. split_and!; by vm_compute. Qed.

End TokenFacts.

(** * Further properties of the handlers and utilities *)

(** ** Facts about the statements *)

Section StoreFacts.
Import Models Store Laws.

Lemma send_neq (q : Statement) (db : DB) : send q db <> db.
Proof.
  intros Heq. apply (f_equal sent) in Heq. simpl in Heq.
  apply (f_equal length) in Heq. simpl in Heq. lia.
Qed.

Lemma taken_false (m : gmap Z Row) (e u : string) :
  taken m e u = false <->
  forall k r, m !! k = Some r -> email r <> e /\ username r <> u.
Proof.
  unfold taken. split.
  - intros Hex k r Hk.
    assert (Hin : In (k, r) (map_to_list m))
      by (by apply list_elem_of_In, elem_of_map_to_list).
    destruct (String.eqb_spec (email r) e) as [He|He];
    destruct (String.eqb_spec (username r) u) as [Hu|Hu]; try done;
      exfalso; apply not_true_iff_false in Hex; apply Hex;
      apply existsb_exists; exists (k, r); simpl; (split; [done |]);
      rewrite ?He, ?Hu, ?String.eqb_refl; by rewrite ?orb_true_r.
  - intros Hall. apply not_true_iff_false.
    intros ([k r] & Hin & Hor)%existsb_exists. simpl in Hor.
    apply list_elem_of_In, elem_of_map_to_list in Hin.
    destruct (Hall k r Hin) as [He Hu].
    apply orb_true_iff in Hor as [Heq%String.eqb_eq | Heq%String.eqb_eq]; done.
Qed.

Lemma taken_true (m : gmap Z Row) (e u : string) k r :
  m !! k = Some r -> email r = e \/ username r = u -> taken m e u = true.
Proof.
  intros Hk Hor. destruct (taken m e u) eqn:Ht; [done |].
  destruct (proj1 (taken_false m e u) Ht k r Hk) as [He Hu]. by destruct Hor.
Qed.

(** What [WHERE email = $1] finds. *)
Lemma find_email_Some (m : gmap Z Row) (e : string) (kr : Z * Row) :
  List.find (fun r : Z * Row => String.eqb (email r.2) e) (map_to_list m) = Some kr ->
  m !! kr.1 = Some kr.2 /\ email kr.2 = e.
Proof.
  intros [Hin Heq]%find_some. apply String.eqb_eq in Heq.
  apply list_elem_of_In in Hin. destruct kr as [k r].
  by apply elem_of_map_to_list in Hin.
Qed.

Lemma find_email_None (m : gmap Z Row) (e : string) :
  List.find (fun r : Z * Row => String.eqb (email r.2) e) (map_to_list m) = None ->
  forall k r, m !! k = Some r -> email r <> e.
Proof.
  intros Hnone k r Hk Heq.
  assert (Hin : In (k, r) (map_to_list m))
    by (by apply list_elem_of_In, elem_of_map_to_list).
  pose proof (find_none _ _ Hnone _ Hin) as Hf. simpl in Hf.
  rewrite Heq, String.eqb_refl in Hf. discriminate.
Qed.

Lemma find_email_is_Some (m : gmap Z Row) (e : string) k r :
  m !! k = Some r -> email r = e ->
  exists kr,
    List.find (fun r : Z * Row => String.eqb (email r.2) e) (map_to_list m) = Some kr.
Proof.
  intros Hk He.
  destruct (List.find _ (map_to_list m)) as [kr|] eqn:Hf; [eauto |].
  by destruct (find_email_None m e Hf k r Hk).
Qed.

Lemma set_names_idem (now : Time) (fn ln : string) (r : Row) :
  set_names now fn ln (set_names now fn ln r) = set_names now fn ln r.
Proof.
  unfold set_names. simpl. f_equal.
  - by destruct (NULLIF fn "").
  - by destruct (NULLIF ln "").
Qed.

Lemma COALESCE_NULLIF_is_set (supplied : string) (column : option string) :
  is_set column -> is_set (COALESCE (NULLIF supplied "") column).
Proof.
  intros Hset. unfold NULLIF.
  destruct (String.eqb_spec supplied "") as [->|Hne]; simpl; [done |].
  by exists supplied.
Qed.

End StoreFacts.

(** ** Who may read and who may write *)

Section Access.
Import Models Utils Store Handlers Laws Fixtures.

Lemma read_only_refl (db : DB) : read_only db db.
Proof. unfold read_only, at_most_one_statement. auto. Qed.

Lemma read_only_send (q : Statement) (db : DB) : read_only db (send q db).
Proof. unfold read_only, at_most_one_statement. simpl. eauto 6. Qed.

Local Ltac reader_cases :=
  simpl; repeat case_match; simplify_eq; simpl;
  first [apply read_only_refl | apply read_only_send].

(** Login and the three GET handlers never change a row, never draw an
    [id], and send at most one statement, whatever the request and
    whatever the state of the store. *)
Theorem readers_keep_table (hasher : PasswordHasher) (lib : JwtLib)
    (env : Env) (db : DB) :
  (forall r, read_only db (Login env db r).2) /\
  (forall B (r : Request B), read_only db (GetUsers db r).2) /\
  (forall B (r : Request B), read_only db (GetUser db r).2) /\
  (forall B (r : Request B), read_only db (GetCurrentUser db r).2).
Proof.
  split_and!.
  - intros r. unfold Login, select_by_email. reader_cases.
  - intros B r. unfold GetUsers, select_all. reader_cases.
  - intros B r. unfold GetUser, select_by_id. reader_cases.
  - intros B r. unfold GetCurrentUser, select_by_id. reader_cases.
Qed.

(** PUT and DELETE leave the handle exactly as it was unless the path
    holds an integer and the context holds that same integer: nobody
    writes to, or even queries, a row other than their own. *)
Theorem writers_need_ownership (env : Env) (db : DB)
    (r : Request UpdateUserRequest) :
  (forall id, Strconv.Atoi (vars_id r) = Some id -> ctx_userID r <> Some id) ->
  (UpdateUser env db r).2 = db /\ (DeleteUser db r).2 = db.
Proof.
  intros Hforeign. unfold UpdateUser, DeleteUser, not_owner.
  destruct (Strconv.Atoi (vars_id r)) as [id|] eqn:Hid; [|done].
  specialize (Hforeign id eq_refl).
  destruct (ctx_userID r) as [auth|]; [|done].
  destruct (Z.eqb_spec auth id) as [->|Hne]; [done |]. done.
Qed.

Lemma writers_need_ownership_witness :
  (UpdateUser sample_env sample_db
     (mkRequest "3" (Some 1%Z) (Some (mkUpdateUserRequest "" "" "X" "Y")))).2
  = sample_db /\
  (DeleteUser sample_db
     (mkRequest "3" (Some 1%Z) (Some (mkUpdateUserRequest "" "" "X" "Y")))).2
  = sample_db.
Proof.
  apply (writers_need_ownership sample_env sample_db
           (mkRequest "3" (Some 1%Z) (Some (mkUpdateUserRequest "" "" "X" "Y")))).
  intros id Hid. vm_compute in Hid. injection Hid as <-. discriminate.
Defined.

End Access.

(** ** More on UpdateUser *)

Section UpdateLaws.
Import Models Utils Store Handlers Laws Fixtures.

Lemma UpdateUser_table (env : Env) (db : DB) (r : Request UpdateUserRequest) :
  users (UpdateUser env db r).2 = users db \/
  exists id req row fn ln,
    Strconv.Atoi (vars_id r) = Some id /\ ctx_userID r = Some id /\
    decoded r = Some req /\ reachable db = true /\
    users db !! id = Some row /\
    varchar 100 (upd_FirstName req) = Some fn /\
    varchar 100 (upd_LastName req) = Some ln /\
    users (UpdateUser env db r).2
    = <[id := set_names (NOW env) fn ln row]> (users db).
Proof.
  unfold UpdateUser, not_owner. simpl.
  destruct (Strconv.Atoi (vars_id r)) as [id|] eqn:Hid; [|by left].
  destruct (ctx_userID r) as [auth|] eqn:Hctx; [|by left].
  destruct (Z.eqb_spec auth id) as [->|Hne]; simpl; [|by left].
  destruct (decoded r) as [req|] eqn:Hreq; [|by left].
  destruct (update_names_outcome (NOW env) (upd_FirstName req)
              (upd_LastName req) id db)
    as [[e ->] | (row & fn & ln & Hup & _ & _ & Hrow & Hfn & Hln & ->)];
    [by left |].
  right. exists id, req, row, fn, ln. split_and!; try done.
  by destruct (scan7 _).
Qed.

(** Sending the same update twice, with the store's clock at the same
    instant, gives the same answer and the same table as sending it once. *)
Theorem UpdateUser_idempotent (env : Env) (db : DB)
    (r : Request UpdateUserRequest) :
  let once := UpdateUser env db r in
  let twice := UpdateUser env once.2 r in
  twice.1 = once.1 /\ users twice.2 = users once.2.
Proof.
  unfold UpdateUser, update_names, not_owner. simpl.
  destruct (Strconv.Atoi (vars_id r)) as [id|]; [|done].
  destruct (ctx_userID r) as [auth|]; [|done].
  destruct (Z.eqb_spec auth id) as [->|Hne]; simpl; [|done].
  destruct (decoded r) as [req|]; [|done].
  destruct (reachable db) eqn:Hup; simpl; [|by rewrite ?Hup].
  destruct (valid_text (upd_FirstName req) && valid_text (upd_LastName req))
    eqn:Hvalid; simpl; [|by rewrite ?Hup; simpl; rewrite ?Hvalid].
  destruct (users db !! id) as [row|] eqn:Hrow; simpl;
    [|by rewrite ?Hup; simpl; rewrite ?Hvalid; simpl; rewrite ?Hrow].
  destruct (varchar 100 (upd_FirstName req)) as [fn|] eqn:Hfn; simpl;
    [|by rewrite ?Hup; simpl; rewrite ?Hvalid; simpl; rewrite ?Hrow, ?Hfn].
  destruct (varchar 100 (upd_LastName req)) as [ln|] eqn:Hln; simpl;
    [|by rewrite ?Hup; simpl; rewrite ?Hvalid; simpl; rewrite ?Hrow, ?Hfn, ?Hln].
  set (row' := set_names (NOW env) fn ln row).
  assert (Hidem : set_names (NOW env) fn ln row' = row')
    by apply set_names_idem.
  destruct (scan7 (id, row')) as [u|e] eqn:Hscan; simpl;
    rewrite ?Hup; simpl; rewrite ?Hvalid; simpl;
    rewrite lookup_insert_eq, ?Hfn, ?Hln; simpl; rewrite Hidem, Hscan; simpl;
    by rewrite insert_insert_eq.
Qed.

(** No request through UpdateUser empties or nulls a name that holds a
    non-empty text: such a name can be replaced, never removed. *)
Theorem UpdateUser_never_clears_a_name (env : Env) (db : DB)
    (r : Request UpdateUserRequest) (k : Z) (row : Row) :
  users db !! k = Some row ->
  exists row',
    users (UpdateUser env db r).2 !! k = Some row' /\
    (is_set (first_name row) -> is_set (first_name row')) /\
    (is_set (last_name row) -> is_set (last_name row')).
Proof.
  intros Hk.
  destruct (UpdateUser_table env db r)
    as [-> | (id & req & old & fn & ln & _ & _ & _ & _ & Hold & _ & _ & ->)];
    [eauto |].
  destruct (decide (k = id)) as [->|Hne].
  - rewrite lookup_insert_eq. eexists. split; [done |].
    rewrite Hold in Hk. injection Hk as ->. simpl.
    split; apply COALESCE_NULLIF_is_set.
  - rewrite lookup_insert_ne by done. eauto.
Qed.

Lemma UpdateUser_never_clears_a_name_witness :
  exists row',
    users (UpdateUser sample_env sample_db
             (mkRequest "1" (Some 1%Z)
                (Some (mkUpdateUserRequest "" "" "" "")))).2 !! 1%Z = Some row' /\
    (is_set (first_name alice) -> is_set (first_name row')) /\
    (is_set (last_name alice) -> is_set (last_name row')).
Proof.
  apply (UpdateUser_never_clears_a_name sample_env sample_db
           (mkRequest "1" (Some 1%Z) (Some (mkUpdateUserRequest "" "" "" "")))
           1%Z alice).
  vm_compute. reflexivity.
Defined.

End UpdateLaws.

(** ** Login *)

Section LoginLaws.
Import Models Utils Store Handlers Laws Fixtures.

Lemma scan8_Ok (r : Z * Row) (u : User) :
  scan8 r = Ok u ->
  ID u = r.1 /\ Email u = email r.2 /\ PasswordHash u = password_hash r.2.
Proof.
  unfold scan8. repeat case_match; try discriminate.
  intros [= <-]. by subst.
Qed.

Section WithCrypto.
Context `{PasswordHasher} `{JwtLib}.

(** A token that [GenerateToken] returned is accepted, with the id it
    was made for, at every instant before its expiry. *)
Lemma issued_token_validates (secret : string) (now1 now2 : Time) (uid : Z)
    (token : Token) :
  GenerateToken secret now1 now2 uid = Ok token ->
  forall now, (now < NewNumericDate now1 + 24 * Hour)%Z ->
  ValidateToken secret now token = Ok uid.
Proof.
  unfold GenerateToken. destruct (is_empty secret) eqn:Hs; [discriminate |].
  intros [= <-] now Hnow. apply is_empty_false in Hs.
  rewrite ValidateToken_signed by done.
  unfold validateClaims. simpl. rewrite NewNumericDate_Add_day.
  by destruct (Z.ltb_spec now (NewNumericDate now1 + 24 * Hour)); [|lia].
Qed.


(** Login answers 200 only for a stored row that holds the email and
    whose hash checks against the password; the body then carries that
    row and a token that validates to the id of the row until it
    expires. *)
Theorem Login_success_is_sound (env : Env) (db : DB) (r : Request LoginRequest) :
  status (Login env db r).1 = 200 ->
  exists (req : LoginRequest) (id : Z) (row : Row) (user : User) (token : Token),
    decoded r = Some req /\
    users db !! id = Some row /\
    email row = login_Email req /\
    CheckPassword (password_hash row) (login_Password req) = true /\
    scan8 (id, row) = Ok user /\
    (Login env db r).1
    = mkResponse 200 (marshalLoginResponse (compact token) user) /\
    forall now, (now < NewNumericDate (time_Now env).1 + 24 * Hour)%Z ->
      ValidateToken (JWT_SECRET env) now token = Ok id.
Proof.
  unfold Login, select_by_email.
  destruct (decoded r) as [req|]; [|discriminate].
  destruct (is_empty (login_Email req) || is_empty (login_Password req));
    [discriminate |].
  simpl. destruct (reachable db); simpl; [|discriminate].
  destruct (valid_text (login_Email req)); simpl; [|discriminate].
  destruct (List.find _ (map_to_list (users db))) as [[id row]|] eqn:Hfind;
    [|discriminate].
  apply find_email_Some in Hfind as [Hk Hemail]. simpl in Hk, Hemail.
  destruct (scan8 (id, row)) as [user|e] eqn:Hscan; [|by destruct e].
  destruct (scan8_Ok _ _ Hscan) as (Hid & _ & Hhash). simpl in Hid, Hhash.
  destruct (CheckPassword (PasswordHash user) (login_Password req)) eqn:Hcheck;
    simpl; [|discriminate].
  destruct (GenerateToken _ _ _ (ID user)) as [token|e] eqn:Htoken;
    [|discriminate].
  intros _. exists req, id, row, user, token. split_and!; try done.
  - by rewrite <- Hhash.
  - intros now Hnow. rewrite <- Hid. by eapply issued_token_validates.
Qed.

End WithCrypto.


Lemma Login_success_is_sound_witness :
  exists (req : LoginRequest) (id : Z) (row : Row) (user : User) (token : Token),
    decoded (mkRequest "" None
               (Some (mkLoginRequest "alice@example.com" "wonderland"))) = Some req /\
    users sample_db !! id = Some row /\
    email row = login_Email req /\
    @CheckPassword sample_hasher (password_hash row) (login_Password req) = true /\
    scan8 (id, row) = Ok user /\
    (@Login sample_hasher sample_jwt sample_env sample_db
       (mkRequest "" None
          (Some (mkLoginRequest "alice@example.com" "wonderland")))).1
    = mkResponse 200 (marshalLoginResponse (@compact sample_jwt token) user) /\
    forall now, (now < NewNumericDate (time_Now sample_env).1 + 24 * Hour)%Z ->
      @ValidateToken sample_jwt (JWT_SECRET sample_env) now token = Ok id.
Proof.
  apply (@Login_success_is_sound sample_hasher sample_jwt sample_env sample_db
           (mkRequest "" None
              (Some (mkLoginRequest "alice@example.com" "wonderland")))).
  vm_compute. reflexivity.
Defined.

End LoginLaws.

(** ** Register *)

Section RegisterLaws.
Import Models Utils Store Handlers Laws Fixtures.

Lemma Validate_None_nonempty (req : RegisterRequest) :
  Validate req = None ->
  is_empty (reg_Email req) = false /\ is_empty (reg_Password req) = false.
Proof.
  unfold Validate. repeat case_match; try discriminate. done.
Qed.

Lemma new_row_storable (now : Time) (req : RegisterRequest) (hashed : string) :
  storable req hashed ->
  new_row now (reg_Email req) (reg_Username req) hashed
    (reg_FirstName req) (reg_LastName req)
  = Some (registered_row now req hashed).
Proof.
  intros (_ & He & Hu & Hh & Hfn & Hln). unfold new_row.
  by rewrite !varchar_fits by done.
Qed.

Section WithCrypto.
Context `{PasswordHasher} `{JwtLib}.

(** What [Register] does once the request is valid and hashed, in terms
    of the outcome of the INSERT. *)
Lemma Register_after_hash (env : Env) (db : DB) (r : Request RegisterRequest)
    (req : RegisterRequest) (hashed : string) :
  decoded r = Some req ->
  Validate req = None ->
  HashPassword (reg_Password req) = Some hashed ->
  storable req hashed ->
  reachable db = true ->
  taken (users db) (reg_Email req) (reg_Username req) = false ->
  users db !! users_id_seq db = None ->
  Register env db r
  = (match GenerateToken (JWT_SECRET env) (time_Now env).1 (time_Now env).2
             (users_id_seq db) with
     | Ok token =>
         mkResponse 201
           (marshalLoginResponse (compact token)
              (registered_user (users_id_seq db) (NOW env) req))
     | Err _ => fail 500 "Failed to generate token"
     end,
     with_users (<[users_id_seq db := registered_row (NOW env) req hashed]> (users db))
       (with_seq (users_id_seq db + 1)
          (send (InsertUser (reg_Email req) (reg_Username req) hashed
                   (reg_FirstName req) (reg_LastName req)) db))).
Proof.
  intros Hreq Hv Hh Hfit Hup Hfree Hid. unfold Register.
  rewrite Hreq, Hv, Hh.
  pose proof (new_row_storable (NOW env) req hashed Hfit) as Hrow.
  destruct (insert_user_outcome (NOW env) (reg_Email req) (reg_Username req)
              hashed (reg_FirstName req) (reg_LastName req) db)
    as [(e & db' & Hfail & _) | (row & _ & _ & Hrow' & _ & _ & ->)].
  - exfalso. revert Hfail. unfold insert_user.
    cbn [reachable send users users_id_seq with_seq].
    destruct Hfit as [Hvalid _]. rewrite Hup, Hvalid, Hrow. cbn [negb].
    cbn [email username registered_row]. rewrite Hfree, Hid.
    unfold scan7. simpl. discriminate.
  - rewrite Hrow in Hrow'. injection Hrow' as <-.
    unfold scan7. simpl. by destruct (GenerateToken _ _ _ _).
Qed.

(** A valid registration of storable texts for a free email and a free
    username, with the store reachable and the secret set, is answered
    201; the table gains exactly the row of the request under the next
    [id], holding the output of the hasher and the store's time in both
    timestamps; the token of the answer validates to that [id] until it
    expires. *)
Theorem Register_creates_the_account (env : Env) (db : DB)
    (r : Request RegisterRequest) (req : RegisterRequest) (hashed : string) :
  decoded r = Some req ->
  Validate req = None ->
  HashPassword (reg_Password req) = Some hashed ->
  storable req hashed ->
  reachable db = true ->
  taken (users db) (reg_Email req) (reg_Username req) = false ->
  users db !! users_id_seq db = None ->
  JWT_SECRET env <> "" ->
  exists token : Token,
    (Register env db r).1
    = mkResponse 201
        (marshalLoginResponse (compact token)
           (registered_user (users_id_seq db) (NOW env) req)) /\
    users (Register env db r).2
    = <[users_id_seq db := registered_row (NOW env) req hashed]> (users db) /\
    users_id_seq (Register env db r).2 = (users_id_seq db + 1)%Z /\
    forall now, (now < NewNumericDate (time_Now env).1 + 24 * Hour)%Z ->
      ValidateToken (JWT_SECRET env) now token = Ok (users_id_seq db).
Proof.
  intros Hreq Hv Hh Hfit Hup Hfree Hid Hs.
  rewrite (Register_after_hash env db r req hashed) by done.
  destruct (GenerateToken _ _ _ _) as [token|e] eqn:Htoken.
  - exists token. split_and!; try done.
    intros now Hnow. by eapply issued_token_validates.
  - rewrite GenerateToken_Ok in Htoken by done. discriminate.
Qed.

(** After such a registration, logging in with the same email and
    password succeeds, for any hasher that checks its own output for
    this password: 200, the registered user, and a token for the new
    [id]. *)
Theorem Register_then_Login (env env' : Env) (db : DB)
    (r : Request RegisterRequest) (req : RegisterRequest) (hashed : string)
    (r' : Request LoginRequest) :
  decoded r = Some req ->
  Validate req = None ->
  HashPassword (reg_Password req) = Some hashed ->
  storable req hashed ->
  CheckPassword hashed (reg_Password req) = true ->
  reachable db = true ->
  taken (users db) (reg_Email req) (reg_Username req) = false ->
  users db !! users_id_seq db = None ->
  JWT_SECRET env' <> "" ->
  decoded r' = Some (mkLoginRequest (reg_Email req) (reg_Password req)) ->
  exists token : Token,
    (Login env' (Register env db r).2 r').1
    = mkResponse 200
        (marshalLoginResponse (compact token)
           (registered_user (users_id_seq db) (NOW env) req)) /\
    forall now, (now < NewNumericDate (time_Now env').1 + 24 * Hour)%Z ->
      ValidateToken (JWT_SECRET env') now token = Ok (users_id_seq db).
Proof.
  intros Hreq Hv Hh Hfit Hcheck Hup Hfree Hid Hs Hreq'.
  rewrite (Register_after_hash env db r req hashed) by done.
  destruct (Validate_None_nonempty req Hv) as [He Hp].
  assert (Hvalid : valid_text (reg_Email req) = true).
  { destruct Hfit as [Hall _]. simpl in Hall.
    by apply andb_true_iff in Hall as [-> _]. }
  unfold Login, select_by_email. rewrite Hreq'. simpl.
  rewrite He, Hp, Hup, Hvalid. simpl.
  set (id := users_id_seq db). set (row := registered_row (NOW env) req hashed).
  destruct (find_email_is_Some (<[id := row]> (users db)) (reg_Email req) id row)
    as [[k found] Hfind]; [apply lookup_insert_eq | done |].
  rewrite Hfind.
  apply find_email_Some in Hfind as [Hk Hemail]. simpl in Hk, Hemail.
  assert (k = id) as ->.
  { destruct (decide (k = id)) as [|Hne]; [done |].
    rewrite lookup_insert_ne in Hk by done.
    by destruct (proj1 (taken_false _ _ _) Hfree k found Hk). }
  rewrite lookup_insert_eq in Hk. injection Hk as <-.
  unfold scan8, row. simpl. rewrite Hcheck. simpl.
  rewrite GenerateToken_Ok by done.
  eexists. split; [reflexivity |].
  intros now Hnow. eapply issued_token_validates; [|done].
  by apply GenerateToken_Ok.
Qed.

(** With [JWT_SECRET] unset the same registration is answered 500, yet
    the row has been written: asking again is answered 409. *)
Theorem Register_without_secret_keeps_the_row (env env' : Env) (db : DB)
    (r : Request RegisterRequest) (req : RegisterRequest) (hashed : string) :
  decoded r = Some req ->
  Validate req = None ->
  HashPassword (reg_Password req) = Some hashed ->
  storable req hashed ->
  reachable db = true ->
  taken (users db) (reg_Email req) (reg_Username req) = false ->
  users db !! users_id_seq db = None ->
  JWT_SECRET env = "" ->
  (Register env db r).1 = fail 500 "Failed to generate token" /\
  users (Register env db r).2 !! users_id_seq db
  = Some (registered_row (NOW env) req hashed) /\
  (Register env' (Register env db r).2 r).1
  = fail 409 "Email or username already exists".
Proof.
  intros Hreq Hv Hh Hfit Hup Hfree Hid Hs.
  rewrite (Register_after_hash env db r req hashed) by done.
  unfold GenerateToken. rewrite Hs. simpl. split_and!.
  - reflexivity.
  - apply lookup_insert_eq.
  - unfold Register. rewrite Hreq, Hv, Hh.
    match goal with
    | |- context [insert_user ?now ?e ?u ?h ?fn ?ln ?d] =>
        destruct (insert_user_outcome now e u h fn ln d)
          as [(err & db' & -> & _) | (row & _ & _ & Hrow & Hnot & _)]
    end; [done |].
    rewrite (new_row_storable _ _ _ Hfit) in Hrow. injection Hrow as <-.
    simpl in Hnot.
    rewrite (taken_true _ _ _ (users_id_seq db)
               (registered_row (NOW env) req hashed)) in Hnot;
      [discriminate | apply lookup_insert_eq | by left].
Qed.

(** Whatever the request, [Register] either leaves every row as it was
    and does not answer 201, or adds exactly the row of a valid request,
    as the columns store it, under the next [id] and answers 201 or, the
    row written all the same, 500 for the token. *)
Theorem Register_writes_one_row_or_none (env : Env) (db : DB)
    (r : Request RegisterRequest) :
  let out := Register env db r in
  (users out.2 = users db /\ status out.1 <> 201) \/
  (exists req hashed row,
     decoded r = Some req /\ Validate req = None /\
     HashPassword (reg_Password req) = Some hashed /\
     new_row (NOW env) (reg_Email req) (reg_Username req) hashed
       (reg_FirstName req) (reg_LastName req) = Some row /\
     taken (users db) (email row) (username row) = false /\
     users db !! users_id_seq db = None /\
     users out.2 = <[users_id_seq db := row]> (users db) /\
     (status out.1 = 201 \/ out.1 = fail 500 "Failed to generate token")).
Proof.
  unfold Register. simpl.
  destruct (decoded r) as [req|] eqn:Hreq; [|by left].
  destruct (Validate req) as [msg|] eqn:Hv; [by left |].
  destruct (HashPassword (reg_Password req)) as [hashed|] eqn:Hh; [|by left].
  destruct (insert_user_outcome (NOW env) (reg_Email req) (reg_Username req)
              hashed (reg_FirstName req) (reg_LastName req) db)
    as [(e & db' & -> & Hsame) | (row & _ & _ & Hrow & Hfree & Hid & ->)];
    [by left |].
  assert (Hscan : exists user, scan7 (users_id_seq db, row) = Ok user).
  { unfold new_row in Hrow.
    destruct (varchar 255 (reg_Email req)); [|discriminate].
    destruct (varchar 100 (reg_Username req)); [|discriminate].
    destruct (varchar 255 hashed); [|discriminate].
    destruct (varchar 100 (reg_FirstName req)) as [fn|]; [|discriminate].
    destruct (varchar 100 (reg_LastName req)) as [ln|]; [|discriminate].
    simpl in Hrow. injection Hrow as <-. by eexists. }
  destruct Hscan as [user ->].
  right. exists req, hashed, row. simpl.
  destruct (GenerateToken _ _ _ _); simpl; split_and!; auto.
Qed.

(** With [JWT_SECRET] unset, neither Register nor Login ever answers
    with its success status. *)
Theorem no_secret_no_token (env : Env) (db : DB)
    (r : Request RegisterRequest) (r' : Request LoginRequest) :
  JWT_SECRET env = "" ->
  status (Register env db r).1 <> 201 /\ status (Login env db r').1 <> 200.
Proof.
  intros Hs. unfold Register, Login, GenerateToken. rewrite Hs. simpl.
  split; repeat case_match; simpl; discriminate.
Qed.

End WithCrypto.

End RegisterLaws.

Section RegisterExamples.
Import Models Utils Store Handlers Laws Fixtures.

Lemma dave_storable : storable dave_request "$2a$10$hunter22".
Proof. unfold storable. split_and!; vm_compute; first [reflexivity | lia]. Defined.

Lemma Register_creates_the_account_witness :
  exists token : Token,
    (@Register sample_hasher sample_jwt sample_env sample_db
       (mkRequest "" None (Some dave_request))).1
    = mkResponse 201
        (marshalLoginResponse (@compact sample_jwt token)
           (registered_user 4%Z 5000%Z dave_request)) /\
    users (@Register sample_hasher sample_jwt sample_env sample_db
             (mkRequest "" None (Some dave_request))).2
    = <[4%Z := registered_row 5000%Z dave_request "$2a$10$hunter22"]>
        (users sample_db) /\
    users_id_seq (@Register sample_hasher sample_jwt sample_env sample_db
                    (mkRequest "" None (Some dave_request))).2 = 5%Z /\
    forall now, (now < NewNumericDate 7000%Z + 24 * Hour)%Z ->
      @ValidateToken sample_jwt "s3cret" now token = Ok 4%Z.
Proof.
  apply (@Register_creates_the_account sample_hasher sample_jwt sample_env
           sample_db (mkRequest "" None (Some dave_request)) dave_request
           "$2a$10$hunter22").
  - reflexivity.
  - by vm_compute.
  - reflexivity.
  - exact dave_storable.
  - reflexivity.
  - by vm_compute.
  - by vm_compute.
  - discriminate.
Defined.

Lemma Register_then_Login_witness :
  exists token : Token,
    (@Login sample_hasher sample_jwt sample_env
       (@Register sample_hasher sample_jwt sample_env sample_db
          (mkRequest "" None (Some dave_request))).2
       (mkRequest "" None
          (Some (mkLoginRequest "dave@example.com" "hunter22")))).1
    = mkResponse 200
        (marshalLoginResponse (@compact sample_jwt token)
           (registered_user 4%Z 5000%Z dave_request)) /\
    forall now, (now < NewNumericDate 7000%Z + 24 * Hour)%Z ->
      @ValidateToken sample_jwt "s3cret" now token = Ok 4%Z.
Proof.
  apply (@Register_then_Login sample_hasher sample_jwt sample_env sample_env
           sample_db (mkRequest "" None (Some dave_request)) dave_request
           "$2a$10$hunter22"
           (mkRequest "" None
              (Some (mkLoginRequest "dave@example.com" "hunter22")))).
  - reflexivity.
  - by vm_compute.
  - reflexivity.
  - exact dave_storable.
  - by vm_compute.
  - reflexivity.
  - by vm_compute.
  - by vm_compute.
  - discriminate.
  - reflexivity.
Defined.

Lemma Register_without_secret_keeps_the_row_witness :
  (@Register sample_hasher sample_jwt (mkEnv "" 5000%Z (7000%Z, 7001%Z))
     sample_db (mkRequest "" None (Some dave_request))).1
  = fail 500 "Failed to generate token" /\
  users (@Register sample_hasher sample_jwt (mkEnv "" 5000%Z (7000%Z, 7001%Z))
           sample_db (mkRequest "" None (Some dave_request))).2 !! 4%Z
  = Some (registered_row 5000%Z dave_request "$2a$10$hunter22") /\
  (@Register sample_hasher sample_jwt sample_env
     (@Register sample_hasher sample_jwt (mkEnv "" 5000%Z (7000%Z, 7001%Z))
        sample_db (mkRequest "" None (Some dave_request))).2
     (mkRequest "" None (Some dave_request))).1
  = fail 409 "Email or username already exists".
Proof.
  apply (@Register_without_secret_keeps_the_row sample_hasher sample_jwt
           (mkEnv "" 5000%Z (7000%Z, 7001%Z)) sample_env sample_db
           (mkRequest "" None (Some dave_request)) dave_request
           "$2a$10$hunter22").
  - reflexivity.
  - by vm_compute.
  - reflexivity.
  - exact dave_storable.
  - reflexivity.
  - by vm_compute.
  - by vm_compute.
  - reflexivity.
Defined.

Lemma no_secret_no_token_witness :
  status (@Register sample_hasher sample_jwt (mkEnv "" 5000%Z (7000%Z, 7001%Z))
            sample_db (mkRequest "" None (Some dave_request))).1 <> 201 /\
  status (@Login sample_hasher sample_jwt (mkEnv "" 5000%Z (7000%Z, 7001%Z))
            sample_db
            (mkRequest "" None
               (Some (mkLoginRequest "alice@example.com" "wonderland")))).1 <> 200.
Proof.
  apply (@no_secret_no_token sample_hasher sample_jwt
           (mkEnv "" 5000%Z (7000%Z, 7001%Z)) sample_db
           (mkRequest "" None (Some dave_request))
           (mkRequest "" None
              (Some (mkLoginRequest "alice@example.com" "wonderland")))).
  reflexivity.
Defined.

End RegisterExamples.

(** ** Reading after writing *)

Section ReadAfterWrite.
Import Models Utils Store Handlers Laws Fixtures.

(** Deleting one's own existing account is answered 200 and removes
    that row and no other; from then on GET by that id and a second
    DELETE are both answered 404. *)
Theorem DeleteUser_removes_own_row {B} (db : DB) (path : string) (id : Z)
    (row : Row) (b : option B) :
  Strconv.Atoi path = Some id ->
  reachable db = true ->
  users db !! id = Some row ->
  let out := DeleteUser db (mkRequest path (Some id) b) in
  out.1 = mkResponse 200 (JObj [("message", JStr "User deleted successfully")]) /\
  users out.2 !! id = None /\
  (forall k, k <> id -> users out.2 !! k = users db !! k) /\
  (forall ctx (b' : option B),
     (GetUser out.2 (mkRequest path ctx b')).1 = fail 404 "User not found") /\
  (DeleteUser out.2 (mkRequest path (Some id) b)).1 = fail 404 "User not found".
Proof.
  intros Hpath Hup Hrow out. subst out.
  unfold DeleteUser, GetUser, delete_by_id, select_by_id, not_owner. simpl.
  rewrite Hpath, Z.eqb_refl, Hup, Hrow. simpl. split_and!.
  - reflexivity.
  - apply lookup_delete_eq.
  - intros k Hk. by apply lookup_delete_ne.
  - intros ctx b'. by rewrite Hup, lookup_delete_eq.
  - by rewrite Hup, lookup_delete_eq.
Qed.

Lemma DeleteUser_removes_own_row_witness :
  let out := DeleteUser sample_db (mkRequest "3" (Some 3%Z) (@None unit)) in
  out.1 = mkResponse 200 (JObj [("message", JStr "User deleted successfully")]) /\
  users out.2 !! 3%Z = None /\
  (forall k, k <> 3%Z -> users out.2 !! k = users sample_db !! k) /\
  (forall ctx (b' : option unit),
     (GetUser out.2 (mkRequest "3" ctx b')).1 = fail 404 "User not found") /\
  (DeleteUser out.2 (mkRequest "3" (Some 3%Z) (@None unit))).1
  = fail 404 "User not found".
Proof.
  apply (DeleteUser_removes_own_row sample_db "3" 3%Z carol (@None unit)).
  - reflexivity.
  - reflexivity.
  - by vm_compute.
Defined.

(** When an update is answered 200, a GET of the same path right after
    it is answered with the very same user. *)
Theorem GetUser_after_UpdateUser {B} (env : Env) (db : DB)
    (r : Request UpdateUserRequest) (ctx : option Z) (b : option B) :
  status (UpdateUser env db r).1 = 200 ->
  (GetUser (UpdateUser env db r).2 (mkRequest (vars_id r) ctx b)).1
  = (UpdateUser env db r).1.
Proof.
  unfold UpdateUser, GetUser, select_by_id, not_owner. simpl.
  destruct (Strconv.Atoi (vars_id r)) as [id|]; [|discriminate].
  destruct (ctx_userID r) as [auth|]; [|discriminate].
  destruct (Z.eqb_spec auth id) as [->|Hne]; simpl; [|discriminate].
  destruct (decoded r) as [req|]; [|discriminate].
  destruct (update_names_outcome (NOW env) (upd_FirstName req)
              (upd_LastName req) id db)
    as [[e ->] | (row & fn & ln & Hup & _ & _ & _ & _ & _ & ->)];
    [discriminate |].
  destruct (scan7 _) as [user|e] eqn:Hscan; [|discriminate].
  intros _. simpl. by rewrite Hup, lookup_insert_eq, Hscan.
Qed.

Lemma GetUser_after_UpdateUser_witness :
  (GetUser (UpdateUser sample_env sample_db
              (mkRequest "1" (Some 1%Z)
                 (Some (mkUpdateUserRequest "" "" "Alicia" "")))).2
     (mkRequest "1" (Some 2%Z) (@None unit))).1
  = (UpdateUser sample_env sample_db
       (mkRequest "1" (Some 1%Z)
          (Some (mkUpdateUserRequest "" "" "Alicia" "")))).1.
Proof.
  apply (GetUser_after_UpdateUser sample_env sample_db
           (mkRequest "1" (Some 1%Z)
              (Some (mkUpdateUserRequest "" "" "Alicia" "")))
           (Some 2%Z) (@None unit)).
  by vm_compute.
Defined.

(** Whenever GET by id is answered 200, [/api/users/me] for the subject
    with that id gives the same answer and leaves the same trace. *)
Theorem GetCurrentUser_agrees_with_GetUser {B} (db : DB) (r r' : Request B)
    (id : Z) :
  status (GetUser db r).1 = 200 ->
  Strconv.Atoi (vars_id r) = Some id ->
  ctx_userID r' = Some id ->
  GetCurrentUser db r' = GetUser db r.
Proof.
  unfold GetUser, GetCurrentUser, select_by_id. intros Hok Hid Hctx.
  rewrite Hid in *. rewrite Hctx. simpl in *.
  destruct (reachable db); simpl in *; [|discriminate].
  destruct (users db !! id) as [row|]; [|discriminate].
  destruct (scan7 (id, row)) as [user|e]; [done |].
  by destruct e.
Qed.

Lemma GetCurrentUser_agrees_with_GetUser_witness :
  GetCurrentUser sample_db (mkRequest "" (Some 1%Z) (@None unit))
  = GetUser sample_db (mkRequest "1" (Some 3%Z) (@None unit)).
Proof.
  apply (GetCurrentUser_agrees_with_GetUser sample_db
           (mkRequest "1" (Some 3%Z) (@None unit))
           (mkRequest "" (Some 1%Z) (@None unit)) 1%Z).
  - by vm_compute.
  - reflexivity.
  - reflexivity.
Defined.

(** A row with a NULL in one of the four nullable columns cannot be
    read: GET by id and [/api/users/me] are answered 500 although the
    row exists. *)
Theorem rows_with_a_NULL_cannot_be_read {B} (db : DB) (r r' : Request B)
    (id : Z) (row : Row) :
  reachable db = true ->
  users db !! id = Some row ->
  first_name row = None \/ last_name row = None \/
    created_at row = None \/ updated_at row = None ->
  Strconv.Atoi (vars_id r) = Some id ->
  ctx_userID r' = Some id ->
  (GetUser db r).1 = fail 500 "Database error" /\
  (GetCurrentUser db r').1 = fail 500 "Failed to fetch user".
Proof.
  intros Hup Hrow Hnull Hid Hctx.
  unfold GetUser, GetCurrentUser, select_by_id. simpl.
  rewrite Hid, Hctx, Hup, Hrow. simpl.
  assert (Hscan : scan7 (id, row) = Err ErrScan).
  { unfold scan7. simpl.
    destruct Hnull as [Hn | [Hn | [Hn | Hn]]]; rewrite Hn;
      by repeat case_match. }
  by rewrite Hscan.
Qed.

Lemma rows_with_a_NULL_cannot_be_read_witness :
  (GetUser sample_db (mkRequest "2" (Some 1%Z) (@None unit))).1
  = fail 500 "Database error" /\
  (GetCurrentUser sample_db (mkRequest "" (Some 2%Z) (@None unit))).1
  = fail 500 "Failed to fetch user".
Proof.
  apply (rows_with_a_NULL_cannot_be_read sample_db
           (mkRequest "2" (Some 1%Z) (@None unit))
           (mkRequest "" (Some 2%Z) (@None unit)) 2%Z bob).
  - reflexivity.
  - by vm_compute.
  - left. reflexivity.
  - reflexivity.
  - reflexivity.
Defined.

(** An update by the owner of a row whose [first_name] is NULL, with no
    first name supplied and a last name the store takes, is answered
    500, and yet the statement has taken effect: the row is stored with
    the last name as the column stores it and the new [updated_at]. *)
Theorem UpdateUser_fails_after_writing (env : Env) (db : DB)
    (r : Request UpdateUserRequest) (req : UpdateUserRequest)
    (id : Z) (row : Row) (ln : string) :
  Strconv.Atoi (vars_id r) = Some id ->
  ctx_userID r = Some id ->
  decoded r = Some req ->
  reachable db = true ->
  users db !! id = Some row ->
  first_name row = None ->
  upd_FirstName req = "" ->
  valid_text (upd_LastName req) = true ->
  varchar 100 (upd_LastName req) = Some ln ->
  (UpdateUser env db r).1 = fail 500 "Failed to update user" /\
  users (UpdateUser env db r).2 !! id
  = Some (set_names (NOW env) "" ln row) /\
  updated_at (set_names (NOW env) "" ln row) = Some (NOW env).
Proof.
  intros Hid Hctx Hreq Hup Hrow Hnull Hempty Hvalid Hln.
  unfold UpdateUser, update_names, not_owner. simpl.
  rewrite Hid, Hctx, Z.eqb_refl, Hreq. simpl. rewrite Hup. simpl.
  rewrite Hempty, Hvalid, Hrow, Hln. simpl.
  assert (Hscan : scan7 (id, set_names (NOW env) "" ln row) = Err ErrScan).
  { unfold scan7, set_names. simpl. by rewrite Hnull. }
  rewrite Hscan. simpl. split_and!; [done | apply lookup_insert_eq | done].
Qed.

Lemma UpdateUser_fails_after_writing_witness :
  (UpdateUser sample_env sample_db
     (mkRequest "2" (Some 2%Z)
        (Some (mkUpdateUserRequest "" "" "" "Bricklayer")))).1
  = fail 500 "Failed to update user" /\
  users (UpdateUser sample_env sample_db
           (mkRequest "2" (Some 2%Z)
              (Some (mkUpdateUserRequest "" "" "" "Bricklayer")))).2 !! 2%Z
  = Some (set_names 5000%Z "" "Bricklayer" bob) /\
  updated_at (set_names 5000%Z "" "Bricklayer" bob) = Some 5000%Z.
Proof.
  apply (UpdateUser_fails_after_writing sample_env sample_db
           (mkRequest "2" (Some 2%Z)
              (Some (mkUpdateUserRequest "" "" "" "Bricklayer")))
           (mkUpdateUserRequest "" "" "" "Bricklayer") 2%Z bob "Bricklayer").
  - reflexivity.
  - reflexivity.
  - reflexivity.
  - reflexivity.
  - by vm_compute.
  - reflexivity.
  - reflexivity.
  - reflexivity.
  - reflexivity.
Defined.

End ReadAfterWrite.

(** ** How long a token lasts *)

Section TokenLifetime.
Import Models Utils Fixtures.

Lemma Truncate_gt (t d : Z) : (0 < d)%Z -> (t - d < Truncate t d)%Z.
Proof. intros Hd. unfold Truncate. pose proof (Z.mod_pos_bound t d Hd). lia. Qed.

(** Counted from the reading of the clock that [GenerateToken] takes for
    the expiry, a token is accepted for at least 24 hours less one
    second and is never accepted 24 hours later or after. *)
Theorem token_lasts_a_day_less_at_most_a_second (lib : JwtLib)
    (secret : string) (now1 now2 : Time) (uid : Z) :
  secret <> "" ->
  exists token : Token,
    GenerateToken secret now1 now2 uid = Ok token /\
    (forall now, (now <= now1 + 24 * Hour - Second)%Z ->
       ValidateToken secret now token = Ok uid) /\
    (forall now, (now1 + 24 * Hour <= now)%Z ->
       ValidateToken secret now token = Err ErrTokenExpired).
Proof.
  intros Hs. eexists. split; [by apply GenerateToken_Ok |].
  pose proof (Truncate_gt now1 Second eq_refl) as Hlo.
  pose proof (Truncate_le now1 Second eq_refl) as Hhi.
  split; intros now Hnow; rewrite ValidateToken_signed by done;
    unfold validateClaims; simpl; rewrite NewNumericDate_Add_day;
    unfold NewNumericDate;
    destruct (Z.ltb_spec now (Truncate now1 Second + 24 * Hour)); try done; lia.
Qed.

Lemma token_lasts_a_day_less_at_most_a_second_witness :
  exists token : Token,
    @GenerateToken sample_jwt "s3cret" 7000%Z 7001%Z 42%Z = Ok token /\
    (forall now, (now <= 7000 + 24 * Hour - Second)%Z ->
       @ValidateToken sample_jwt "s3cret" now token = Ok 42%Z) /\
    (forall now, (7000 + 24 * Hour <= now)%Z ->
       @ValidateToken sample_jwt "s3cret" now token = Err ErrTokenExpired).
Proof.
  apply (token_lasts_a_day_less_at_most_a_second sample_jwt "s3cret"
           7000%Z 7001%Z 42%Z).
  discriminate.
Defined.

End TokenLifetime.

(** ** What an accepted email looks like *)

Section EmailFacts.
Import Regexp Models Spec.

Lemma length_list_ascii_of_string (s : string) :
  length (list_ascii_of_string s) = String.length s.
Proof. induction s as [|c s IH]; simpl; [done | by rewrite IH]. Qed.

Lemma count_occ_class (p : ascii -> bool) (c : ascii) (w : list ascii) :
  p c = false -> forallb p w = true -> count_occ ascii_dec w c = 0%nat.
Proof.
  intros Hc. induction w as [|a w IH]; simpl; [done |].
  intros [Ha Hw]%andb_true_iff.
  destruct (ascii_dec a c) as [->|_]; [congruence | by apply IH].
Qed.

(** [isValidEmail] accepts exactly the texts [local@domain.tld] over
    the three character classes, with a non-empty local part, a
    non-empty domain and at least two final letters; so an accepted
    email has exactly one at sign and at least six bytes. *)
Theorem accepted_emails (s : string) :
  (isValidEmail s = true <-> email_shape (list_ascii_of_string s)) /\
  (isValidEmail s = true ->
     count_occ ascii_dec (list_ascii_of_string s) "@"%char = 1%nat /\
     (6 <= String.length s)%nat).
Proof.
  split; [apply isValidEmail_shape |].
  intros (l & d & t & Hw & Hl1 & Hl2 & Hd1 & Hd2 & Ht1 & Ht2)%isValidEmail_shape.
  rewrite <- length_list_ascii_of_string, Hw. split.
  - rewrite count_occ_app. simpl. rewrite count_occ_app. simpl.
    rewrite (count_occ_class local_char), (count_occ_class domain_char),
      (count_occ_class alpha) by done.
    reflexivity.
  - destruct l; [done |]. destruct d; [done |].
    rewrite length_app. simpl. rewrite length_app. simpl. lia.
Qed.

End EmailFacts.

(** ** The uniqueness of emails and usernames *)

Section Uniqueness.
Import Models Utils Store Handlers Laws Fixtures.

Section Column.
Variable f : Row -> string.

Let unique (m : gmap Z Row) : Prop :=
  forall i j ri rj, m !! i = Some ri -> m !! j = Some rj -> f ri = f rj -> i = j.

Lemma unique_insert_fresh (m : gmap Z Row) (id : Z) (row : Row) :
  unique m ->
  (forall k r, m !! k = Some r -> f r <> f row) ->
  unique (<[id := row]> m).
Proof.
  intros Hu Hfresh i j ri rj Hi Hj Heq.
  destruct (decide (i = id)) as [->|Hi'], (decide (j = id)) as [->|Hj'];
    [done | | |].
  - rewrite lookup_insert_eq in Hi. rewrite lookup_insert_ne in Hj by done.
    injection Hi as <-. by destruct (Hfresh j rj Hj).
  - rewrite lookup_insert_eq in Hj. rewrite lookup_insert_ne in Hi by done.
    injection Hj as <-. by destruct (Hfresh i ri Hi).
  - rewrite lookup_insert_ne in Hi, Hj by done. eauto.
Qed.

Lemma unique_insert_same (m : gmap Z Row) (id : Z) (old row : Row) :
  unique m -> m !! id = Some old -> f row = f old ->
  unique (<[id := row]> m).
Proof.
  intros Hu Hold Hsame i j ri rj Hi Hj Heq.
  destruct (decide (i = id)) as [->|Hi'], (decide (j = id)) as [->|Hj'];
    [done | | |].
  - rewrite lookup_insert_eq in Hi. rewrite lookup_insert_ne in Hj by done.
    injection Hi as <-. symmetry. apply (Hu j id rj old); congruence.
  - rewrite lookup_insert_eq in Hj. rewrite lookup_insert_ne in Hi by done.
    injection Hj as <-. apply (Hu i id ri old); congruence.
  - rewrite lookup_insert_ne in Hi, Hj by done. eauto.
Qed.

Lemma unique_delete (m : gmap Z Row) (id : Z) :
  unique m -> unique (delete id m).
Proof.
  intros Hu i j ri rj [_ Hi]%lookup_delete_Some [_ Hj]%lookup_delete_Some.
  eauto.
Qed.

End Column.

Section WithCrypto.
Context `{PasswordHasher} `{JwtLib}.

Lemma Register_table (env : Env) (db : DB) (r : Request RegisterRequest) :
  users (Register env db r).2 = users db \/
  exists row,
    taken (users db) (email row) (username row) = false /\
    users (Register env db r).2 = <[users_id_seq db := row]> (users db).
Proof.
  unfold Register. simpl.
  destruct (decoded r) as [req|]; [|by left].
  destruct (Validate req); [by left |].
  destruct (HashPassword (reg_Password req)) as [hashed|]; [|by left].
  destruct (insert_user_outcome (NOW env) (reg_Email req) (reg_Username req)
              hashed (reg_FirstName req) (reg_LastName req) db)
    as [(e & db' & -> & Hsame) | (row & _ & _ & _ & Hfree & _ & ->)];
    [by left |].
  right. exists row. split; [done |]. by repeat case_match.
Qed.

Lemma DeleteUser_table {B} (db : DB) (r : Request B) :
  users (DeleteUser db r).2 = users db \/
  exists id, users (DeleteUser db r).2 = delete id (users db).
Proof.
  unfold DeleteUser, delete_by_id. simpl.
  repeat case_match; simplify_eq; simpl; eauto.
Qed.

(** If no two rows share an email and no two rows share a username,
    this is still so after any request to Register, UpdateUser or
    DeleteUser, the three handlers that write. *)
Theorem writers_keep_emails_and_usernames_unique (env : Env) (db : DB) :
  consistent db ->
  (forall r, consistent (Register env db r).2) /\
  (forall r, consistent (UpdateUser env db r).2) /\
  (forall B (r : Request B), consistent (DeleteUser db r).2).
Proof.
  intros [He Hu]. unfold consistent. split_and!.
  - intros r.
    destruct (Register_table env db r) as [-> | (row & Hfree & ->)];
      [done |].
    pose proof (proj1 (taken_false (users db) (email row) (username row))
                  Hfree) as Hnone.
    split;
      [refine (unique_insert_fresh email (users db) _ _ He _)
      |refine (unique_insert_fresh username (users db) _ _ Hu _)];
      intros k row' Hk; by destruct (Hnone k row' Hk).
  - intros r.
    destruct (UpdateUser_table env db r)
      as [-> | (id & req & old & fn & ln & _ & _ & _ & _ & Hold & _ & _ & ->)];
      [done |].
    split;
      [exact (unique_insert_same email (users db) id old
                (set_names (NOW env) fn ln old) He Hold eq_refl)
      |exact (unique_insert_same username (users db) id old
                (set_names (NOW env) fn ln old) Hu Hold eq_refl)].
  - intros B r.
    destruct (DeleteUser_table db r) as [-> | [id ->]]; [done |].
    split;
      [exact (unique_delete email (users db) id He)
      |exact (unique_delete username (users db) id Hu)].
Qed.

End WithCrypto.

Lemma writers_keep_emails_and_usernames_unique_witness :
  (forall r, consistent (@Register sample_hasher sample_jwt sample_env sample_db r).2) /\
  (forall r, consistent (UpdateUser sample_env sample_db r).2) /\
  (forall B (r : Request B), consistent (DeleteUser sample_db r).2).
Proof.
  apply (@writers_keep_emails_and_usernames_unique sample_hasher sample_jwt
           sample_env sample_db).
  split; intros i j ri rj Hi Hj Heq;
    apply elem_of_map_to_list in Hi; apply elem_of_map_to_list in Hj;
    vm_compute in Hi, Hj;
    repeat (apply elem_of_cons in Hi as [[= -> ->] | Hi]);
    try (by apply not_elem_of_nil in Hi);
    repeat (apply elem_of_cons in Hj as [[= -> ->] | Hj]);
    try (by apply not_elem_of_nil in Hj);
    first [reflexivity | discriminate Heq].
Defined.

End Uniqueness.

(** ** What ValidateToken accepts *)

Section TokenGate.
Import Models Utils Fixtures.

(** [ValidateToken] returns an id only when the secret is set, the
    method of the header is of the HMAC family, the signature is the
    digest of the signed text under the secret, the expiry, if any, lies
    ahead and the not-before date, if any, does not; the id is then the
    [user_id] of the claims.  A token asserting any other method is
    never accepted. *)
Theorem ValidateToken_accepts_only_signed_and_current (lib : JwtLib)
    (secret : string) (now : Time) (token : Token) (uid : Z) :
  ValidateToken secret now token = Ok uid ->
  secret <> "" /\
  isHMAC (Method token) = true /\
  Signature token
  = mac (Method token) secret (SigningString (Method token) (TokenClaims token)) /\
  (forall exp, ExpiresAt (TokenClaims token) = Some exp -> (now < exp)%Z) /\
  (forall nbf, NotBefore (TokenClaims token) = Some nbf -> (nbf <= now)%Z) /\
  uid = UserID (TokenClaims token).
Proof.
  unfold ValidateToken, validateClaims.
  destruct (is_empty secret) eqn:Hs; [discriminate |].
  destruct (isHMAC (Method token)) eqn:Hm; simpl; [|discriminate].
  destruct (String.eqb_spec (Signature token)
              (mac (Method token) secret
                 (SigningString (Method token) (TokenClaims token))))
    as [Hsig|_]; simpl; [|discriminate].
  apply is_empty_false in Hs.
  destruct (ExpiresAt (TokenClaims token)) as [exp|],
           (NotBefore (TokenClaims token)) as [nbf|];
    repeat match goal with
           | |- context [Z.ltb ?a ?b] => destruct (Z.ltb_spec a b)
           end;
    simpl; intros Hok; try discriminate Hok; injection Hok as <-;
    split_and!; try done; intros ? ?; simplify_eq; lia.
Qed.

Lemma ValidateToken_accepts_only_signed_and_current_witness :
  "s3cret" <> "" /\
  isHMAC SigningMethodHS256 = true /\
  "s3cret/header.payload"
  = @mac sample_jwt SigningMethodHS256 "s3cret"
      (@SigningString sample_jwt SigningMethodHS256
         (mkClaims 42 (Some 9000%Z) (Some 100%Z) None)) /\
  (forall exp, Some 9000%Z = Some exp -> (5000 < exp)%Z) /\
  (forall nbf, Some 100%Z = Some nbf -> (nbf <= 5000)%Z) /\
  42%Z = 42%Z.
Proof.
  apply (ValidateToken_accepts_only_signed_and_current sample_jwt "s3cret"
           5000%Z
           (mkToken SigningMethodHS256
              (mkClaims 42 (Some 9000%Z) (Some 100%Z) None)
              "s3cret/header.payload")
           42%Z).
  by vm_compute.
Defined.

End TokenGate.


(** ** The widths of the columns at work *)

Section ColumnWidths.
Import Models Utils Store Handlers Laws Fixtures.

(** A registration whose username has 101 letters passes [Validate];
    the INSERT is refused, and Register answers 409 without writing. *)
Example Register_long_username :
  Validate (mkRegisterRequest "dave@example.com" long_name "hunter22" "" "")
  = None /\
  (@Register sample_hasher sample_jwt sample_env sample_db
     (mkRequest "" None
        (Some (mkRegisterRequest "dave@example.com" long_name "hunter22" "" "")))).1
  = fail 409 "Email or username already exists" /\
  users (@Register sample_hasher sample_jwt sample_env sample_db
           (mkRequest "" None
              (Some (mkRegisterRequest "dave@example.com" long_name
                       "hunter22" "" "")))).2
  = users sample_db.
Proof. split_and!; by vm_compute. Qed.

(** A first name of a hundred letters and a space is taken, cut to the
    hundred letters, and the update is answered 200. *)
Example UpdateUser_padded_name :
  status (UpdateUser sample_env sample_db
            (mkRequest "1" (Some 1%Z)
               (Some (mkUpdateUserRequest "" "" padded_name "")))).1 = 200 /\
  first_name <$>
    users (UpdateUser sample_env sample_db
             (mkRequest "1" (Some 1%Z)
                (Some (mkUpdateUserRequest "" "" padded_name "")))).2 !! 1%Z
  = Some (Some (string_of_list_ascii (replicate 100 "a"%char))).
Proof. split; by vm_compute. Qed.

End ColumnWidths.
